(** * spotify-history-analytics: the Collector (lambda.py) and the
    Deduplicator (glue-job.py), embedded and verified.

    The Python code is embedded shallowly.  Python objects that the code
    touches (parsed JSON, boto3 responses, the records it builds) are terms of
    [Py.value]; a Python call that may raise is a computation in the
    state-and-exception monad [Lambda.M] over the [World] the Lambda runs in (its
    file system, its environment variables, the S3 buckets, the wall clock and
    the trace of external calls).  The collaborators the code only calls
    (Parameter Store, the Spotify client, S3, Spark) are arguments of the
    embedding.  Output written with [print] is not part of the model. *)

From Stdlib Require Import ZArith Ascii String DecimalString DecimalZ Permutation.
From stdpp Require Import base option list strings gmap.

Set Warnings "-register-all".

Local Open Scope string_scope.
Local Open Scope list_scope.
Local Open Scope Z_scope.

(** ** Python values, exceptions and the semantics of the operators used *)

Module Py.

(** Exceptions, all of them subclasses of [Exception].  [IntKeyError i] is
    the [KeyError] of an [int] key; [External] stands for whatever a
    collaborator raises (botocore's ClientError, spotipy's SpotifyException,
    requests' errors, ...). *)
Inductive exn : Type :=
  | KeyError (key : string)
  | IntKeyError (key : Z)
  | TypeError
  | IndexError
  | AttributeError
  | ValueError (msg : string)
  | IsADirectoryError (path : string)
  | External (name : string).

Inductive result (A : Type) : Type :=
  | Return (a : A)
  | Raise (e : exn).
Arguments Return {A} a.
Arguments Raise {A} e.

Definition is_raise {A} (r : result A) : bool :=
  match r with Raise _ => true | Return _ => false end.

(** Objects: what [json.loads] produces and [json.dumps] consumes.  A [str]
    is a sequence of characters, a [dict] keeps insertion order, a [float] is
    carried by the text [float.__repr__] gives for it. *)
Inductive value : Type :=
  | VNone
  | VBool (b : bool)
  | VInt (n : Z)
  | VFloat (repr : string)
  | VStr (s : string)
  | VList (l : list value)
  | VDict (d : list (string * value)).

(** [d[k]] on the entries of a dict. *)
Fixpoint assoc (k : string) (d : list (string * value)) : option value :=
  match d with
  | [] => None
  | (k', v) :: d' => if String.eqb k k' then Some v else assoc k d'
  end.

(** [bool(v)] *)
Definition truthy (v : value) : bool :=
  match v with
  | VNone => false
  | VBool b => b
  | VInt n => negb (n =? 0)
  | VFloat r => negb (String.eqb r "0.0" || String.eqb r "-0.0")
  | VStr s => negb (String.eqb s "")
  | VList l => match l with [] => false | _ => true end
  | VDict d => match d with [] => false | _ => true end
  end.

(** [v[k]] for a [str] key *)
Definition getitem (v : value) (k : string) : result value :=
  match v with
  | VDict d => match assoc k d with
               | Some x => Return x
               | None => Raise (KeyError k)
               end
  | _ => Raise TypeError
  end.

(** [l[i]] on a sequence, negative indices counting from the end *)
Definition seq_index {A} (l : list A) (i : Z) : option A :=
  let n := Z.of_nat (length l) in
  if (0 <=? i) && (i <? n) then l !! Z.to_nat i
  else if (i <? 0) && (0 <=? n + i) then l !! Z.to_nat (n + i)
  else None.

Definition chars (s : string) : list string :=
  (fun c => String c EmptyString) <$> list_ascii_of_string s.

(** [v[i]] for an [int] index *)
Definition getitem_int (v : value) (i : Z) : result value :=
  match v with
  | VList l => match seq_index l i with
               | Some x => Return x
               | None => Raise IndexError
               end
  | VStr s => match seq_index (chars s) i with
              | Some c => Return (VStr c)
              | None => Raise IndexError
              end
  | VDict _ => Raise (IntKeyError i)
  | _ => Raise TypeError
  end.

(** [s[a:b]] on a [str], for [0 <= a <= b] *)
Definition str_slice (a b : nat) (s : string) : string :=
  substring a (b - a)%nat s.

(** [v[a:b]]; a dict has no slice for a key (the error is a [TypeError]
    before Python 3.12). *)
Definition getslice (v : value) (a b : nat) : result value :=
  match v with
  | VStr s => Return (VStr (str_slice a b s))
  | VList l => Return (VList (take (b - a)%nat (drop a l)))
  | _ => Raise TypeError
  end.

(** [v.get(k, default)]: only a dict has the method *)
Definition dict_get (v : value) (k : string) (dflt : value) : result value :=
  match v with
  | VDict d => Return (default dflt (assoc k d))
  | _ => Raise AttributeError
  end.

(** [for x in v]: the elements a loop visits *)
Definition iterate (v : value) : result (list value) :=
  match v with
  | VList l => Return l
  | VStr s => Return (VStr <$> chars s)
  | VDict d => Return ((fun kv => VStr kv.1) <$> d)
  | _ => Raise TypeError
  end.

(** *** The [json] module: [json.dumps] *)

Definition nl : string := String "010" EmptyString.
Definition dquote : string := String "034" EmptyString.
Definition backslash : string := String "092" EmptyString.

Definition hex_digit (n : N) : ascii :=
  ascii_of_N (if (n <? 10)%N then 48 + n else 87 + n).

(** ['\\u{0:04x}'.format(n)] for a character below 256 *)
Definition u_escape (c : ascii) : string :=
  let n := N_of_ascii c in
  backslash +:+ "u00" +:+
  String (hex_digit (n / 16)) (String (hex_digit (n mod 16)) EmptyString).

(** The replacement of one character inside a JSON string: ESCAPE_DCT, and
    with [ensure_ascii] everything outside [' '..'~']. *)
Definition escape_char (ensure_ascii : bool) (c : ascii) : string :=
  let n := N_of_ascii c in
  if (n =? 34)%N then backslash +:+ dquote
  else if (n =? 92)%N then backslash +:+ backslash
  else if (n =? 10)%N then backslash +:+ "n"
  else if (n =? 13)%N then backslash +:+ "r"
  else if (n =? 9)%N then backslash +:+ "t"
  else if (n =? 8)%N then backslash +:+ "b"
  else if (n =? 12)%N then backslash +:+ "f"
  else if (n <? 32)%N then u_escape c
  else if ensure_ascii && (126 <? n)%N then u_escape c
  else String c EmptyString.

Fixpoint escape (ensure_ascii : bool) (s : string) : string :=
  match s with
  | EmptyString => EmptyString
  | String c s' => escape_char ensure_ascii c +:+ escape ensure_ascii s'
  end.

Definition encode_str (ensure_ascii : bool) (s : string) : string :=
  dquote +:+ escape ensure_ascii s +:+ dquote.

Definition encode_int (n : Z) : string :=
  NilZero.string_of_int (Z.to_int n).

Definition encode_float (repr : string) : string :=
  if String.eqb repr "nan" then "NaN"
  else if String.eqb repr "inf" then "Infinity"
  else if String.eqb repr "-inf" then "-Infinity"
  else repr.

Fixpoint spaces (n : nat) : string :=
  match n with
  | O => EmptyString
  | S n' => String " " (spaces n')
  end.

(** What [_make_iterencode] puts around and between the items of a
    container at nesting depth [level]: [(opening, separator, closing)]. *)
Definition layout (indent : option nat) (level : nat) : string * string * string :=
  match indent with
  | None => (EmptyString, ", ", EmptyString)
  | Some w =>
      let newline_indent := nl +:+ spaces (w * S level) in
      (newline_indent, "," +:+ newline_indent, nl +:+ spaces (w * level))
  end.

Definition wrap (indent : option nat) (level : nat)
    (open close : string) (items : list string) : string :=
  match items with
  | [] => open +:+ close
  | _ =>
      let '(first, separator, last) := layout indent level in
      open +:+ first +:+ String.concat separator items +:+ last +:+ close
  end.

(** [json.dumps(v, ensure_ascii=.., indent=..)], the text of [v] when it sits
    at nesting depth [level]. *)
Fixpoint dumps_at (ensure_ascii : bool) (indent : option nat) (level : nat)
    (v : value) : string :=
  match v with
  | VNone => "null"
  | VBool true => "true"
  | VBool false => "false"
  | VInt n => encode_int n
  | VFloat r => encode_float r
  | VStr s => encode_str ensure_ascii s
  | VList l =>
      wrap indent level "[" "]"
        (List.map (dumps_at ensure_ascii indent (S level)) l)
  | VDict d =>
      wrap indent level "{" "}"
        (List.map (fun '(k, x) =>
                     encode_str ensure_ascii k +:+ ": " +:+
                     dumps_at ensure_ascii indent (S level) x) d)
  end.

Definition dumps (ensure_ascii : bool) (indent : option nat) (v : value) : string :=
  dumps_at ensure_ascii indent 0 v.

(** The text has no newline character. *)
Fixpoint single_line (s : string) : bool :=
  match s with
  | EmptyString => true
  | String c s' => negb (Ascii.eqb c "010") && single_line s'
  end.

(** No [float] inside the object has a newline in its text (the text of a
    Python float never has one). *)
Fixpoint plain_floats (v : value) : bool :=
  match v with
  | VFloat r => single_line r
  | VList l => forallb plain_floats l
  | VDict d => forallb (fun '(_, x) => plain_floats x) d
  | _ => true
  end.

(** *** [str] methods used by the code *)

(** [s.split(sep)] for a one-character separator *)
Fixpoint split (sep : ascii) (s : string) : list string :=
  match s with
  | EmptyString => [EmptyString]
  | String c s' =>
      if Ascii.eqb c sep then EmptyString :: split sep s'
      else match split sep s' with
           | w :: ws => String c w :: ws
           | [] => [String c EmptyString]
           end
  end.

(** [s.encode('utf-8')].  A [str] of this embedding holds code points up to
    U+00FF, each of which has a UTF-8 encoding of one or two bytes; a text
    with a lone surrogate, on which [str.encode] raises, is not a term of
    [string]. *)
Fixpoint encode_utf8 (s : string) : list Byte.byte :=
  match s with
  | EmptyString => []
  | String c s' =>
      let n := N_of_ascii c in
      (if (n <? 128)%N then [byte_of_ascii c]
       else [byte_of_ascii (ascii_of_N (192 + n / 64));
             byte_of_ascii (ascii_of_N (128 + n mod 64))])
      ++ encode_utf8 s'
  end.

(** *** The [datetime] module *)

Record datetime : Type := {
  year : Z; month : Z; day : Z;
  hour : Z; minute : Z; second : Z; microsecond : Z
}.

(** ['%0wd' % n] *)
Definition zfill (w : nat) (n : Z) : string :=
  let digits := encode_int n in
  string_of_list_ascii (List.repeat "0"%char (w - String.length digits)%nat)
  +:+ digits.

Definition directive (d : ascii) (dt : datetime) : string :=
  if Ascii.eqb d "Y" then zfill 4 (year dt)
  else if Ascii.eqb d "m" then zfill 2 (month dt)
  else if Ascii.eqb d "d" then zfill 2 (day dt)
  else if Ascii.eqb d "H" then zfill 2 (hour dt)
  else if Ascii.eqb d "M" then zfill 2 (minute dt)
  else if Ascii.eqb d "S" then zfill 2 (second dt)
  else String "%" (String d EmptyString).

(** [dt.strftime(fmt)] for the directives above *)
Fixpoint strftime (fmt : string) (dt : datetime) : string :=
  match fmt with
  | EmptyString => EmptyString
  | String c rest =>
      if Ascii.eqb c "%" then
        match rest with
        | String d rest' => directive d dt +:+ strftime rest' dt
        | EmptyString => "%"
        end
      else String c (strftime rest dt)
  end.

(** [dt.isoformat()] of a naive datetime *)
Definition isoformat (dt : datetime) : string :=
  zfill 4 (year dt) +:+ "-" +:+ zfill 2 (month dt) +:+ "-" +:+ zfill 2 (day dt)
  +:+ "T" +:+ zfill 2 (hour dt) +:+ ":" +:+ zfill 2 (minute dt) +:+ ":"
  +:+ zfill 2 (second dt)
  +:+ (if microsecond dt =? 0 then EmptyString
       else "." +:+ zfill 6 (microsecond dt)).

(** A [datetime] as the clock of a run gives it: a date of a four-digit
    year and a time of day. *)
Definition valid_datetime (t : datetime) : bool :=
  (1000 <=? year t) && (year t <=? 9999)
  && (1 <=? month t) && (month t <=? 12)
  && (1 <=? day t) && (day t <=? 31)
  && (0 <=? hour t) && (hour t <=? 23)
  && (0 <=? minute t) && (minute t <=? 59)
  && (0 <=? second t) && (second t <=? 59).

Definition same_day (t t' : datetime) : Prop :=
  year t = year t' /\ month t = month t' /\ day t = day t'.

Definition same_second (t t' : datetime) : Prop :=
  same_day t t'
  /\ hour t = hour t' /\ minute t = minute t' /\ second t = second t'.

(** [int(s)] for a text of decimal digits *)
Definition parse_digits (s : string) : option Z :=
  Z.of_uint <$> NilEmpty.uint_of_string s.

#[global] Instance result_ret : MRet result := @Return.
#[global] Instance result_bind : MBind result := fun A B f r =>
  match r with
  | Return a => f a
  | Raise e => Raise e
  end.

End Py.

(** ** lambda.py: the Collector *)

Module Lambda.
Import Py.

(** *** The world the handler runs in *)

Inductive node : Type :=
  | File (content : string)
  | Directory.

(** Calls that leave the process, in the order they are made. *)
Inductive event : Type :=
  | ShutilCopy (src dst : string)
  | GetParametersByPath (path : string) (with_decryption : bool)
  | CurrentUserRecentlyPlayed (limit : Z)
  | PutObject (bucket key : string) (body : list Byte.byte).

Record World : Type := {
  files : gmap string node;
  environ : gmap string string;
  objects : gmap (string * string) (list Byte.byte);
  now_calls : nat;
  trace : list event
}.

Definition set_files (f : gmap string node) (w : World) : World :=
  {| files := f; environ := environ w; objects := objects w;
     now_calls := now_calls w; trace := trace w |}.
Definition set_objects (o : gmap (string * string) (list Byte.byte)) (w : World) : World :=
  {| files := files w; environ := environ w; objects := o;
     now_calls := now_calls w; trace := trace w |}.
Definition tick (w : World) : World :=
  {| files := files w; environ := environ w; objects := objects w;
     now_calls := S (now_calls w); trace := trace w |}.
Definition record (ev : event) (w : World) : World :=
  {| files := files w; environ := environ w; objects := objects w;
     now_calls := now_calls w; trace := trace w ++ [ev] |}.

(** A computation that reads and changes the world and may raise. *)
Definition M (A : Type) : Type := World -> result A * World.

#[global] Instance M_ret : MRet M := fun A a w => (Return a, w).
#[global] Instance M_bind : MBind M := fun A B f m w =>
  match m w with
  | (Return a, w') => f a w'
  | (Raise e, w') => (Raise e, w')
  end.

Definition raise {A} (e : exn) : M A := fun w => (Raise e, w).

(** A pure expression that may raise, evaluated in place. *)
Definition eval {A} (r : result A) : M A := fun w => (r, w).

(** [try: body / except Exception as e: handler e] *)
Definition try_except {A} (body : M A) (handler : exn -> M A) : M A := fun w =>
  match body w with
  | (Raise e, w') => handler e w'
  | (Return a, w') => (Return a, w')
  end.

(** *** The collaborators *)

(** [spotipy.Spotify]: the one method called.  The auth manager refreshes the
    token in its cache file as it sees fit, so the call may rewrite files. *)
Record Client : Type := {
  current_user_recently_played :
    Z -> gmap string node -> result value * gmap string node
}.

Record Collaborators : Type := {
  (** the value of the k-th [datetime.now()] of the run *)
  clock : nat -> datetime;
  (** [ssm.get_parameters_by_path(Path=.., WithDecryption=True)] *)
  get_parameters_by_path : string -> result value;
  (** [spotipy.Spotify(auth_manager=SpotifyOAuth(client_id, client_secret,
      redirect_uri, scope, cache_path, open_browser))] *)
  Spotify : value -> value -> value -> string -> string -> bool -> result Client;
  (** whether [s3.put_object] raises, given the calls made so far *)
  put_object_error : list event -> string -> string -> list Byte.byte -> option exn
}.

(** [e[k]], [e[i]] and [e[a:b]] on an expression that may already have
    raised. *)
Definition pure_value (v : value) : result value := Return v.
Coercion pure_value : value >-> result.

Definition subscript (r : result value) (k : string) : result value :=
  v ← r; getitem v k.
Definition subscript_int (r : result value) (i : Z) : result value :=
  v ← r; getitem_int v i.
Definition slice (r : result value) (a b : nat) : result value :=
  v ← r; getslice v a b.

Notation "r .[ k ]" := (subscript r k)
  (at level 1, left associativity, format "r .[ k ]").
Notation "r .[# i ]" := (subscript_int r i)
  (at level 1, left associativity, format "r .[# i ]").

Section Collector.
Context (C : Collaborators).

(** [datetime.now()] *)
Definition now : M datetime := fun w =>
  (Return (clock C (now_calls w)), tick w).

(** [os.path.exists(path)] *)
Definition path_exists (path : string) : M bool := fun w =>
  (Return (bool_decide (is_Some (files w !! path))), w).

(** [shutil.copy(src, dst)], for a [dst] that is not a directory *)
Definition shutil_copy (src dst : string) : M unit := fun w =>
  let w := record (ShutilCopy src dst) w in
  match files w !! src with
  | Some (File content) => (Return (), set_files (<[dst := File content]> (files w)) w)
  | Some Directory => (Raise (IsADirectoryError src), w)
  | None => (Raise (External "FileNotFoundError"), w)
  end.

(** [os.environ[name]] *)
Definition os_environ (name : string) : M string := fun w =>
  match environ w !! name with
  | Some v => (Return v, w)
  | None => (Raise (KeyError name), w)
  end.

Definition ssm_get_parameters_by_path (path : string) (with_decryption : bool)
    : M value := fun w =>
  (get_parameters_by_path C path, record (GetParametersByPath path with_decryption) w).

Definition sp_current_user_recently_played (sp_client : Client) (limit : Z)
    : M value := fun w =>
  let w := record (CurrentUserRecentlyPlayed limit) w in
  let '(r, f) := current_user_recently_played sp_client limit (files w) in
  (r, set_files f w).

(** [s3.put_object(Bucket=.., Key=.., Body=..)] *)
Definition s3_put_object (bucket key : string) (body : list Byte.byte) : M unit := fun w =>
  let w' := record (PutObject bucket key body) w in
  match put_object_error C (trace w) bucket key body with
  | Some e => (Raise e, w')
  | None => (Return (), set_objects (<[(bucket, key) := body]> (objects w')) w')
  end.

(** The dict built for one item of the response (the body of the loop of
    [get_recent_tracks]).  Python evaluates the entries in the order written;
    all but the last are expressions on [item]. *)
Definition track_fields (item : value) : result (list (string * value)) :=
  track_id ← item.["track"].["id"];
  name ← item.["track"].["name"];
  artist ← item.["track"].["artists"].[#0].["name"];
  played_at ← item.["played_at"];
  album ← item.["track"].["album"].["name"];
  duration_ms ← item.["track"].["duration_ms"];
  popularity ← item.["track"].["popularity"];
  explicit ← item.["track"].["explicit"];
  artist_id ← item.["track"].["artists"].[#0].["id"];
  album_id ← item.["track"].["album"].["id"];
  release_date ← item.["track"].["album"].["release_date"];
  total_tracks ← item.["track"].["album"].["total_tracks"];
  played_date ← slice item.["played_at"] 0 10;
  played_hour ← slice item.["played_at"] 11 13;
  Return [
    ("track_id", track_id);
    ("name", name);
    ("artist", artist);
    ("played_at", played_at);
    ("album", album);
    ("duration_ms", duration_ms);
    ("popularity", popularity);
    ("explicit", explicit);
    ("artist_id", artist_id);
    ("album_id", album_id);
    ("release_date", release_date);
    ("total_tracks", total_tracks);
    ("played_date", played_date);
    ("played_hour", played_hour)
  ].

(** The dict itself: the entries above, then the timestamp of the moment it
    is built. *)
Definition track_data (item : value) : M value :=
  fields ← eval (track_fields item);
  collection_timestamp ← now;
  mret (VDict (fields ++
    [("collection_timestamp", VStr (isoformat collection_timestamp))])).

(** [for item in items: all_tracks.append(track_data)] *)
Fixpoint for_item_in (items : list value) (all_tracks : list value) : M (list value) :=
  match items with
  | [] => mret all_tracks
  | item :: rest =>
      td ← track_data item;
      for_item_in rest (all_tracks ++ [td])
  end.

Definition target_count : Z := 50.

Definition get_recent_tracks (sp_client : Client) : M (list value) :=
  let all_tracks := [] in
  try_except
    (results ← sp_current_user_recently_played sp_client target_count;
     items ← eval (dict_get results "items" (VList []));
     if negb (truthy items) then mret []
     else
       elements ← eval (iterate items);
       for_item_in elements all_tracks)
    (fun e => mret []).

(** The argument of [put_object] is evaluated inside the [try]; on the texts
    of the embedding [encode] does not raise (see [encode_utf8]), so the one
    call that can is [put_object]. *)
Definition _upload_string_to_s3 (content_string bucket_name key : string) : M bool :=
  try_except
    (s3_put_object bucket_name key (encode_utf8 content_string);;
     mret true)
    (fun e => mret false).

Definition jsonl_content (tracks : list value) : string :=
  String.concat nl (List.map (dumps false None) tracks).

Definition save_json_for_glue (tracks : list value) (bucket_name file_prefix : string)
    : M (option string) :=
  t1 ← now;
  let timestamp := strftime "%Y%m%d_%H%M%S" t1 in
  t2 ← now;
  let date_partition := strftime "year=%Y/month=%m/day=%d" t2 in
  let file_name :=
    file_prefix +:+ "/" +:+ date_partition +:+ "/historial_" +:+ timestamp +:+ ".jsonl" in
  let jsonl_content := jsonl_content tracks in
  let s3_url := "s3://" +:+ bucket_name +:+ "/" +:+ file_name in
  ok ← _upload_string_to_s3 jsonl_content bucket_name file_name;
  if (ok : bool) then mret (Some s3_url) else mret None.

Definition json_content (tracks : list value) : string :=
  dumps false (Some 2%nat) (VList tracks).

Definition save_regular_json (tracks : list value) (bucket_name file_prefix : string)
    : M (option string) :=
  t ← now;
  let timestamp := strftime "%Y%m%d_%H%M%S" t in
  let file_name := file_prefix +:+ "/historial_" +:+ timestamp +:+ ".json" in
  let json_content := json_content tracks in
  let s3_url := "s3://" +:+ bucket_name +:+ "/" +:+ file_name in
  ok ← _upload_string_to_s3 json_content bucket_name file_name;
  if (ok : bool) then mret (Some s3_url) else mret None.

(** [bool(url)] for a value that is [None] or a [str] *)
Definition url_truthy (url : option string) : bool :=
  match url with
  | Some s => truthy (VStr s)
  | None => false
  end.

(** The copy of the packaged token cache to [/tmp] (first statement of the
    handler). *)
Definition packaged_cache_path : string := "./.cache".
Definition tmp_cache_path : string := "/tmp/.cache".

Definition cache_handoff : M unit :=
  tmp_exists ← path_exists tmp_cache_path;
  (* [and] evaluates its right operand only when the left one is true *)
  copy ← (if negb tmp_exists then path_exists packaged_cache_path else mret false);
  if (copy : bool) then shutil_copy packaged_cache_path tmp_cache_path else mret ().

(** [{param['Name'].split('/')[-1]: param['Value'] for param in ...}] *)
Definition secret_name (name : value) : result string :=
  match name with
  | VStr s =>
      match seq_index (split "/" s) (-1) with
      | Some k => Return k
      | None => Raise IndexError
      end
  | _ => Raise AttributeError
  end.

Fixpoint secrets_of (params : list value) (secrets : gmap string value)
    : result (gmap string value) :=
  match params with
  | [] => Return secrets
  | param :: rest =>
      name ← param.["Name"];
      k ← secret_name name;
      v ← param.["Value"];
      secrets_of rest (<[k := v]> secrets)
  end.

Definition required_secrets : list string :=
  ["client-id"; "client-secret"; "redirect-uri"].

(** [secrets[k]] *)
Definition secret (secrets : gmap string value) (k : string) : result value :=
  match secrets !! k with
  | Some v => Return v
  | None => Raise (KeyError k)
  end.

Definition ok_response : value :=
  VDict [("statusCode", VInt 200);
         ("body", VStr (dumps true None (VStr "Datos guardados correctamente en S3.")))].

Definition no_new_response : value :=
  VDict [("statusCode", VInt 200);
         ("body", VStr (dumps true None (VStr "No se procesaron nuevas canciones.")))].

(** Step 1 of the handler: the two environment variables. *)
Definition get_configuration : M (string * string) :=
  try_except
    (parameter_path ← os_environ "PARAMETER_PATH";
     s3_bucket ← os_environ "S3_BUCKET";
     mret (parameter_path, s3_bucket))
    (fun e => raise e).

(** Step 2 of the handler: the secrets under [parameter_path]. *)
Definition get_secrets (parameter_path : string) : M (gmap string value) :=
  try_except
    (response ← ssm_get_parameters_by_path parameter_path true;
     params ← eval (v ← (response : value).["Parameters"]; iterate v);
     secrets ← eval (secrets_of params ∅);
     if negb (forallb (fun k => bool_decide (is_Some (secrets !! k))) required_secrets)
     then raise (ValueError
       "Faltan secretos (client-id, client-secret, o redirect-uri) en Parameter Store.")
     else mret secrets)
    (fun e => raise e).

(** Step 3 of the handler: the Spotify client. *)
Definition authenticate (secrets : gmap string value) : M Client :=
  client_id ← eval (secret secrets "client-id");
  client_secret ← eval (secret secrets "client-secret");
  redirect_uri ← eval (secret secrets "redirect-uri");
  eval (Spotify C client_id client_secret redirect_uri
          "user-read-recently-played" tmp_cache_path false).

(** Step 4 of the handler, after the fetch: the two writes and the
    response. *)
Definition store (tracks : list value) (s3_bucket : string) : M value :=
  if truthy (VList tracks) then
    glue_url ← save_json_for_glue tracks s3_bucket "raw/historial";
    regular_url ← save_regular_json tracks s3_bucket "processed/historial";
    if url_truthy glue_url && url_truthy regular_url
    then mret ok_response
    else mret no_new_response
  else mret no_new_response.

Definition lambda_handler (event context : value) : M value :=
  cache_handoff;;
  '(parameter_path, s3_bucket) ← get_configuration;
  secrets ← get_secrets parameter_path;
  sp ← authenticate secrets;
  tracks ← get_recent_tracks sp;
  store tracks s3_bucket.

(** The handler up to the fetch: what it needs to reach step 4. *)
Definition setup : M (Client * string) :=
  cache_handoff;;
  '(parameter_path, s3_bucket) ← get_configuration;
  secrets ← get_secrets parameter_path;
  sp ← authenticate secrets;
  mret (sp, s3_bucket).

End Collector.

(** *** Well-formed responses of the recently-played endpoint *)

Definition has_keys (ks : list string) (v : value) : bool :=
  match v with
  | VDict d => forallb (fun k => bool_decide (is_Some (assoc k d))) ks
  | _ => false
  end.

(** An item with the nested fields the Collector reads: [track] with its
    scalar fields, a first artist, an album, and a [played_at] string. *)
Definition valid_item (item : value) : bool :=
  match item.["played_at"], item.["track"] with
  | Return (VStr _), Return track =>
      has_keys ["id"; "name"; "artists"; "album"; "duration_ms"; "popularity";
                "explicit"] track
      && match track.["artists"], track.["album"] with
         | Return (VList (artist :: _)), Return album =>
             has_keys ["name"; "id"] artist
             && has_keys ["name"; "id"; "release_date"; "total_tracks"] album
         | _, _ => false
         end
  | _, _ => false
  end.

(** *** Items that cannot be normalized *)

(** One step of a read on an item: [v[k]] for a key, [v[i]] for an index. *)
Inductive step : Type :=
  | Key (k : string)
  | Index (i : Z).

(** [item[s1][s2]...] *)
Definition read (item : value) (path : list step) : result value :=
  fold_left (fun r s => match s with
                        | Key k => r.[k]
                        | Index i => r.[#i]
                        end) path (Return item).

(** The nested fields of an item that the loop of [get_recent_tracks] reads
    (lines 107-118), in the order it reads them. *)
Definition required_fields : list (list step) :=
  [ [Key "track"; Key "id"];
    [Key "track"; Key "name"];
    [Key "track"; Key "artists"; Index 0; Key "name"];
    [Key "played_at"];
    [Key "track"; Key "album"; Key "name"];
    [Key "track"; Key "duration_ms"];
    [Key "track"; Key "popularity"];
    [Key "track"; Key "explicit"];
    [Key "track"; Key "artists"; Index 0; Key "id"];
    [Key "track"; Key "album"; Key "id"];
    [Key "track"; Key "album"; Key "release_date"];
    [Key "track"; Key "album"; Key "total_tracks"] ].

(** The values with a slice [v[a:b]]. *)
Definition sliceable (v : value) : bool :=
  match v with
  | VStr _ | VList _ => true
  | _ => false
  end.

(** An item with a missing or malformed required field: one of the reads
    fails (a key is absent, a container is not a dict, the list of artists is
    empty or not a sequence), or [played_at] is there and has no slice (it is
    null, a number, a boolean or a dict).  The content of a [played_at]
    string plays no part. *)
Definition malformed (item : value) : bool :=
  existsb (fun path => is_raise (read item path)) required_fields
  || match read item [Key "played_at"] with
     | Return played_at => negb (sliceable played_at)
     | Raise _ => false
     end.

Definition response_items (resp : value) : option (list value) :=
  match resp.["items"] with
  | Return (VList items) => Some items
  | _ => None
  end.

(** A response with at most [limit] items, all of them valid. *)
Definition valid_response (limit : Z) (resp : value) : bool :=
  match response_items resp with
  | Some items => forallb valid_item items && (Z.of_nat (length items) <=? limit)
  | None => false
  end.

(** The keys of a normalized record, in order. *)
Definition record_keys : list string :=
  ["track_id"; "name"; "artist"; "played_at"; "album"; "duration_ms";
   "popularity"; "explicit"; "artist_id"; "album_id"; "release_date";
   "total_tracks"; "played_date"; "played_hour"; "collection_timestamp"].

(** The world [n] readings of the clock later. *)
Definition later (n : nat) (w : World) : World :=
  Nat.iter n tick w.

(** The world right after the call of the endpoint by [get_recent_tracks]. *)
Definition fetched (sp_client : Client) (w : World) : World :=
  set_files (current_user_recently_played sp_client target_count (files w)).2
            (record (CurrentUserRecentlyPlayed target_count) w).

(** The names of the two objects, from the clock readings they use. *)
Definition glue_file_name (file_prefix : string) (t1 t2 : datetime) : string :=
  file_prefix +:+ "/" +:+ strftime "year=%Y/month=%m/day=%d" t2
  +:+ "/historial_" +:+ strftime "%Y%m%d_%H%M%S" t1 +:+ ".jsonl".

Definition regular_file_name (file_prefix : string) (t : datetime) : string :=
  file_prefix +:+ "/historial_" +:+ strftime "%Y%m%d_%H%M%S" t +:+ ".json".

(** [w'] is [w] after the calls [evs] were made; the environment variables
    are the same. *)
Definition extends_by (evs : list event) (w w' : World) : Prop :=
  environ w' = environ w /\ trace w' = trace w ++ evs.

(** The calls of a trace that go over the network. *)
Definition is_network_call (ev : event) : bool :=
  match ev with
  | ShutilCopy _ _ => false
  | _ => true
  end.

Definition is_put_object (ev : event) : bool :=
  match ev with
  | PutObject _ _ _ => true
  | _ => false
  end.

Definition is_copy (ev : event) : bool :=
  match ev with
  | ShutilCopy _ _ => true
  | _ => false
  end.

End Lambda.

(** ** Sample runs: concrete collaborators, worlds and responses *)

Module Sample.
Import Py Lambda.

Definition item (id played : string) : value :=
  VDict [
    ("track", VDict [
       ("id", VStr id); ("name", VStr "Song");
       ("artists", VList [VDict [("name", VStr "Artist"); ("id", VStr "ar1")]]);
       ("album", VDict [("name", VStr "Album"); ("id", VStr "al1");
                        ("release_date", VStr "2020-02-02");
                        ("total_tracks", VInt 10)]);
       ("duration_ms", VInt 215000); ("popularity", VInt 57);
       ("explicit", VBool false)]);
    ("played_at", VStr played)].

(** An item without [track]. *)
Definition bad_item : value :=
  VDict [("played_at", VStr "2024-01-15T16:00:00.000Z")].

Definition response (items : list value) : value :=
  VDict [("items", VList items); ("limit", VInt 50)].

Definition two_items : list value :=
  [item "t1" "2024-01-15T14:30:00.000Z"; item "t2" "2024-01-15T13:05:10.000Z"].

(** A response with one play at half past two in the afternoon. *)
Definition afternoon : value :=
  response [item "t1" "2024-01-15T14:30:00.000Z"].

(** A response whose second item cannot be normalized. *)
Definition mixed : value :=
  response [item "t1" "2024-01-15T14:30:00.000Z"; bad_item].

Definition noon : datetime :=
  {| year := 2024; month := 1; day := 15; hour := 12; minute := 0;
     second := 0; microsecond := 0 |}.

(** A client that answers [resp] and leaves the files alone. *)
Definition client (resp : result value) : Client :=
  {| current_user_recently_played := fun _ f => (resp, f) |}.

Definition parameters : value :=
  VDict [("Parameters", VList [
    VDict [("Name", VStr "/spotify/client-id"); ("Value", VStr "id")];
    VDict [("Name", VStr "/spotify/client-secret"); ("Value", VStr "secret")];
    VDict [("Name", VStr "/spotify/redirect-uri"); ("Value", VStr "http://localhost")]])].

(** Collaborators that answer [resp] to the fetch and fail the S3 writes
    numbered in [failing] (0 is the first write of the run). *)
Definition collaborators (resp : result value) (failing : list nat) : Collaborators :=
  {| clock := fun k => noon;
     get_parameters_by_path := fun _ => Return parameters;
     Spotify := fun _ _ _ _ _ _ => Return (client resp);
     put_object_error := fun tr _ _ _ =>
       if bool_decide (length (List.filter is_put_object tr) ∈ failing)
       then Some (External "ClientError") else None |}.

(** A freshly started environment: the packaged seed, nothing in [/tmp]. *)
Definition cold : World :=
  {| files := {[ "./.cache" := File "seed-token" ]};
     environ := {[ "PARAMETER_PATH" := "/spotify"; "S3_BUCKET" := "bucket" ]};
     objects := ∅; now_calls := 0; trace := [] |}.

(** A warm environment: [/tmp/.cache] holds a refreshed token. *)
Definition warm : World :=
  {| files := {[ "./.cache" := File "seed-token";
                 "/tmp/.cache" := File "refreshed-token" ]};
     environ := {[ "PARAMETER_PATH" := "/spotify"; "S3_BUCKET" := "bucket" ]};
     objects := ∅; now_calls := 0; trace := [] |}.

(** An environment without [S3_BUCKET]. *)
Definition unconfigured : World :=
  {| files := {[ "./.cache" := File "seed-token" ]};
     environ := {[ "PARAMETER_PATH" := "/spotify" ]};
     objects := ∅; now_calls := 0; trace := [] |}.

(** A response whose item has a [played_at] that is no timestamp. *)
Definition garbled : value :=
  response [item "t1" "garbage"].

(** The answer of Parameter Store without the redirect URI. *)
Definition incomplete_parameters : value :=
  VDict [("Parameters", VList [
    VDict [("Name", VStr "/spotify/client-id"); ("Value", VStr "id")];
    VDict [("Name", VStr "/spotify/client-secret"); ("Value", VStr "secret")]])].

(** [C] with another answer of Parameter Store. *)
Definition with_parameters (answer : result value) (C : Collaborators) : Collaborators :=
  {| clock := clock C;
     get_parameters_by_path := fun _ => answer;
     Spotify := Spotify C;
     put_object_error := put_object_error C |}.

(** A package whose [.cache] is a directory. *)
Definition broken_package : World :=
  {| files := {[ "./.cache" := Directory ]};
     environ := {[ "PARAMETER_PATH" := "/spotify"; "S3_BUCKET" := "bucket" ]};
     objects := ∅; now_calls := 0; trace := [] |}.

Definition one_second_later : datetime :=
  {| year := 2024; month := 1; day := 15; hour := 12; minute := 0;
     second := 1; microsecond := 0 |}.

End Sample.

(** ** glue-job.py: the Deduplicator *)

Module GlueJob.
Import Py.

(** A value of a column of the flat play-record table; SQL NULL is the
    absence of the column in the row. *)
Inductive cell : Type :=
  | CString (s : string)
  | CLong (n : Z)
  | CBoolean (b : bool).

#[global] Instance cell_eq_dec : EqDecision cell.
Proof. solve_decision. Defined.

Abbreviation Row := (gmap string cell).

Record DataFrame : Type := {
  columns : list string;
  rows : list Row
}.

(** What Spark leaves open: the order in which it meets the rows of a frame
    (which decides the survivor of a group of duplicates) and the order in
    which it hands out the rows of the result.  Both are rearrangements. *)
Record Engine : Type := {
  scan : list Row -> list Row;
  collect : list Row -> list Row;
  scan_perm : forall l, Permutation (scan l) l;
  collect_perm : forall l, Permutation (collect l) l
}.

(** The grouping key of a row: its values in the columns of [subset]. *)
Definition key_of (subset : list string) (r : Row) : list (option cell) :=
  (fun c => r !! c) <$> subset.

(** One row per key, the first one met. *)
Fixpoint first_per_key (subset : list string) (l : list Row) : list Row :=
  match l with
  | [] => []
  | r :: l' =>
      r :: filter (fun r' => key_of subset r' ≠ key_of subset r)
                  (first_per_key subset l')
  end.

Definition distinct_rows (E : Engine) (subset : list string) (l : list Row)
    : list Row :=
  collect E (first_per_key subset (scan E l)).

(** [df.dropDuplicates(subset)], with column names told apart by their exact
    spelling: a name of [subset] that is no column of the frame raises.
    (Spark's default setting also resolves a name that differs from a column
    by case only; the results below are about tables that have the column as
    it is named.) *)
Definition dropDuplicates (E : Engine) (subset : list string) (df : DataFrame)
    : result DataFrame :=
  if forallb (fun c => bool_decide (c ∈ columns df)) subset then
    Return {| columns := columns df;
              rows := distinct_rows E subset (rows df) |}
  else Raise (External "AnalysisException").

Definition DATABASE_NAME : string := "spotify_analytics".
Definition TABLE_NAME : string := "historial".
Definition OUTPUT_PATH : string := "s3://spotify-historial-raw/historial-limpio/".
Definition DEDUP_COLUMN : string := "played_at".

(** The frame the job computes from the loaded table (steps 2 of the
    script: [toDF], [dropDuplicates], [fromDF]). *)
Definition deduplicated_df (E : Engine) (df : DataFrame) : result DataFrame :=
  dropDuplicates E [DEDUP_COLUMN] df.

(** The request handed to [write_dynamic_frame.from_options]. *)
Record WriteRequest : Type := {
  frame : DataFrame;
  connection_type : string;
  path : string;
  partitionKeys : list string;
  format : string
}.

(** The script, from the catalog load to the write.  The steps between them
    that only report ([count], [printSchema]) and the conversions [toDF] and
    [fromDF] are taken to succeed. *)
Definition job (E : Engine)
    (from_catalog : string -> string -> result DataFrame) : result WriteRequest :=
  source_data ← from_catalog DATABASE_NAME TABLE_NAME;
  let df := source_data in
  deduplicated_data ← deduplicated_df E df;
  Return {| frame := deduplicated_data; connection_type := "s3";
            path := OUTPUT_PATH; partitionKeys := []; format := "parquet" |}.

(** The engine that keeps the order of the input. *)
Definition in_order : Engine :=
  {| scan := fun l => l; collect := fun l => l;
     scan_perm := fun l => Permutation_refl l;
     collect_perm := fun l => Permutation_refl l |}.

(** The value of the key column of a row. *)
Definition played_at (r : Row) : option cell := r !! DEDUP_COLUMN.

(** Two small tables: one with a repeated [played_at], one without. *)
Definition three_rows : DataFrame :=
  {| columns := ["played_at"];
     rows := [ {[ "played_at" := CString "t1" ]};
               {[ "played_at" := CString "t1" ]};
               {[ "played_at" := CString "t2" ]} ] |}.

Definition two_rows : DataFrame :=
  {| columns := ["played_at"; "name"];
     rows := [ {[ "played_at" := CString "t1"; "name" := CString "a" ]};
               {[ "played_at" := CString "t2"; "name" := CString "b" ]} ] |}.

(** An engine that meets the rows in the reverse order. *)
Definition reversed : Engine :=
  {| scan := fun l => rev l; collect := fun l => l;
     scan_perm := fun l => Permutation_sym (Permutation_rev l);
     collect_perm := fun l => Permutation_refl l |}.

End GlueJob.

(** * Properties *)

(** ** The Python operations on small inputs *)

Module PySpec.
Import Py.

Example dumps_compact :
  dumps false None
    (VDict [("a", VInt 1); ("b", VList [VStr "x/y"; VNone; VInt (-20)])])
  = "{" +:+ dquote +:+ "a" +:+ dquote +:+ ": 1, " +:+ dquote +:+ "b"
    +:+ dquote +:+ ": [" +:+ dquote +:+ "x/y" +:+ dquote +:+ ", null, -20]}".
Proof. reflexivity. Qed.

Example dumps_indented :
  dumps false (Some 2%nat) (VList [VDict [("a", VInt 1)]; VList []])
  = "[" +:+ nl +:+ "  {" +:+ nl +:+ "    " +:+ dquote +:+ "a" +:+ dquote
    +:+ ": 1" +:+ nl +:+ "  }," +:+ nl +:+ "  []" +:+ nl +:+ "]".
Proof. reflexivity. Qed.

Example dumps_escapes :
  dumps false None (VStr ("a" +:+ nl +:+ dquote +:+ "b"))
  = dquote +:+ "a" +:+ backslash +:+ "n" +:+ backslash +:+ dquote +:+ "b" +:+ dquote.
Proof. reflexivity. Qed.

Example strftime_partition :
  strftime "year=%Y/month=%m/day=%d"
    {| year := 2024; month := 1; day := 5; hour := 7;
       minute := 3; second := 9; microsecond := 120 |}
  = "year=2024/month=01/day=05".
Proof. reflexivity. Qed.

Example isoformat_microseconds :
  isoformat
    {| year := 2024; month := 1; day := 5; hour := 7;
       minute := 3; second := 9; microsecond := 120 |}
  = "2024-01-05T07:03:09.000120".
Proof. reflexivity. Qed.

Example split_path : split "/" "/spotify/client-id" = [""; "spotify"; "client-id"].
Proof. reflexivity. Qed.

Example slice_hour : str_slice 11 13 "2024-01-15T14:30:00.000Z" = "14".
Proof. reflexivity. Qed.

(** *** [json.dumps] without [indent] writes one line *)

Lemma single_line_app a b :
  single_line (a +:+ b) = single_line a && single_line b.
Proof.
  induction a as [|c a IH]; simpl; [done|]. rewrite IH. by rewrite andb_assoc.
Qed.

Lemma single_line_escape_char ensure_ascii c :
  single_line (escape_char ensure_ascii c) = true.
Proof.
  destruct ensure_ascii, c as [[] [] [] [] [] [] [] []]; vm_compute; reflexivity.
Qed.

Lemma single_line_escape ensure_ascii s :
  single_line (escape ensure_ascii s) = true.
Proof.
  induction s as [|c s IH]; simpl; [done|].
  by rewrite single_line_app, single_line_escape_char, IH.
Qed.

Lemma single_line_encode_str ensure_ascii s :
  single_line (encode_str ensure_ascii s) = true.
Proof.
  unfold encode_str. by rewrite !single_line_app, single_line_escape.
Qed.

Lemma single_line_encode_int n : single_line (encode_int n) = true.
Proof.
  unfold encode_int, NilZero.string_of_int.
  assert (Hu : forall d, single_line (NilZero.string_of_uint d) = true).
  { intros d. unfold NilZero.string_of_uint.
    assert (He : forall d0, single_line (NilEmpty.string_of_uint d0) = true).
    { clear. induction d0 as [|? IH|? IH|? IH|? IH|? IH|? IH|? IH|? IH|? IH|? IH];
        simpl; rewrite ?IH; reflexivity. }
    destruct d; try apply He. reflexivity. }
  destruct (Z.to_int n); simpl; by rewrite ?Hu.
Qed.

Lemma single_line_concat sep l :
  single_line sep = true -> Forall (fun s => single_line s = true) l ->
  single_line (String.concat sep l) = true.
Proof.
  intros Hsep. induction 1 as [|s l Hs Hl IH]; simpl; [done|].
  destruct l as [|s' l]; [done|].
  by rewrite !single_line_app, Hs, Hsep, IH.
Qed.


Lemma value_ind_nested (P : value -> Prop) :
  P VNone -> (forall b, P (VBool b)) -> (forall n, P (VInt n)) ->
  (forall r, P (VFloat r)) -> (forall s, P (VStr s)) ->
  (forall l, Forall P l -> P (VList l)) ->
  (forall d, Forall (fun kv => P kv.2) d -> P (VDict d)) ->
  forall v, P v.
Proof.
  intros HNone HBool HInt HFloat HStr HList HDict. fix IH 1.
  intros [|b|n|r|s|l|d];
    [apply HNone|apply HBool|apply HInt|apply HFloat|apply HStr| |].
  - apply HList. induction l as [|x l IHl]; constructor; [apply IH|exact IHl].
  - apply HDict. induction d as [|[k x] d IHd]; constructor; [apply IH|exact IHd].
Qed.

Lemma single_line_encode_float r :
  single_line r = true -> single_line (encode_float r) = true.
Proof.
  intros Hr. unfold encode_float.
  repeat match goal with |- context [String.eqb ?a ?b] => destruct (String.eqb a b) end;
    done.
Qed.

Lemma single_line_wrap level open close items :
  single_line open = true -> single_line close = true ->
  Forall (fun s => single_line s = true) items ->
  single_line (wrap None level open close items) = true.
Proof.
  intros Ho Hc Hitems. unfold wrap. destruct items as [|s items].
  - by rewrite single_line_app, Ho, Hc.
  - cbn [layout]. rewrite !single_line_app, Ho, Hc.
    by rewrite (single_line_concat ", " (s :: items)).
Qed.

(** The compact text of an object has no newline. *)
Lemma single_line_dumps ensure_ascii v :
  plain_floats v = true ->
  forall level, single_line (dumps_at ensure_ascii None level v) = true.
Proof.
  induction v as [|b|n|r|s|l IH|d IH] using value_ind_nested; intros Hv level.
  - done.
  - by destruct b.
  - apply single_line_encode_int.
  - by apply single_line_encode_float.
  - apply single_line_encode_str.
  - cbn [dumps_at]. apply single_line_wrap; [done|done|].
    cbn [plain_floats] in Hv. rewrite forallb_forall in Hv.
    apply Forall_forall. intros t Ht. apply list_elem_of_In, in_map_iff in Ht
      as (x & <- & Hx).
    rewrite Forall_forall in IH. apply IH; [by apply list_elem_of_In|by apply Hv].
  - cbn [dumps_at]. apply single_line_wrap; [done|done|].
    cbn [plain_floats] in Hv. rewrite forallb_forall in Hv.
    apply Forall_forall. intros t Ht. apply list_elem_of_In, in_map_iff in Ht
      as ([k x] & <- & Hx).
    rewrite Forall_forall in IH.
    rewrite !single_line_app, single_line_encode_str. cbn [andb single_line].
    apply (IH (k, x)); [by apply list_elem_of_In|exact (Hv (k, x) Hx)].
Qed.

Lemma split_single_line s :
  single_line s = true -> split "010" s = [s].
Proof.
  induction s as [|c s IH]; cbn [single_line split]; [done|].
  intros [Hc Hs]%andb_prop. apply negb_true_iff in Hc. rewrite Hc.
  by rewrite (IH Hs).
Qed.

Lemma split_line a b :
  single_line a = true -> split "010" (a +:+ nl +:+ b) = a :: split "010" b.
Proof.
  induction a as [|c a IH]; cbn [single_line]; intros Ha.
  - reflexivity.
  - apply andb_prop in Ha as [Hc Ha]. apply negb_true_iff in Hc.
    change (String c a +:+ nl +:+ b) with (String c (a +:+ nl +:+ b)).
    cbn [split]. by rewrite Hc, (IH Ha).
Qed.

(** Joining single-line texts by newlines and splitting at the newlines
    gives the texts back, in order. *)
Lemma split_concat_lines l :
  l <> [] -> Forall (fun s => single_line s = true) l ->
  split "010" (String.concat nl l) = l.
Proof.
  intros Hne Hl. induction Hl as [|s l Hs Hl IH]; [done|].
  destruct l as [|s' l].
  - by apply split_single_line.
  - change (String.concat nl (s :: s' :: l))
      with (s +:+ nl +:+ String.concat nl (s' :: l)).
    rewrite (split_line _ _ Hs). f_equal. by apply IH.
Qed.


End PySpec.

(** ** The Collector *)

Module LambdaSpec.
Import Py Lambda PySpec.

(** *** Strings *)

Lemma prefix_substring (n : nat) (s : string) :
  String.prefix (substring 0 n s) s = true.
Proof.
  revert n. induction s as [|c s IH]; intros [|n]; simpl; try done.
  rewrite IH. by destruct (ascii_dec c c).
Qed.

Lemma substring_adjacent (a n : nat) (s : string) :
  substring 0 a s +:+ substring a n s = substring 0 (a + n) s.
Proof.
  revert s. induction a as [|a IH]; intros s; simpl.
  - by destruct s, n.
  - destruct s as [|c s]; simpl; [done|]. by rewrite <- IH.
Qed.

(** *** Valid items *)

Lemma has_keys_getitem ks v k :
  has_keys ks v = true -> k ∈ ks -> exists x, getitem v k = Return x.
Proof.
  destruct v as [| | | | | |d]; simpl; try done.
  rewrite forallb_forall. intros Hall Hin.
  apply list_elem_of_In, Hall, bool_decide_eq_true in Hin as [x Hx].
  exists x. by rewrite Hx.
Qed.

Lemma valid_item_fields item :
  valid_item item = true ->
  exists s fields,
    track_fields item = Return fields
    /\ fields.*1 = take 14 record_keys
    /\ assoc "played_at" fields = Some (VStr s)
    /\ assoc "played_date" fields = Some (VStr (str_slice 0 10 s))
    /\ assoc "played_hour" fields = Some (VStr (str_slice 11 13 s)).
Proof.
  unfold valid_item. unfold subscript at 1 2. simpl.
  destruct (getitem item "played_at") as [[| | | |s| |]|] eqn:Hplayed; try done.
  destruct (getitem item "track") as [track|] eqn:Htrack; try done.
  intros [Htk Hrest]%andb_prop. revert Hrest. unfold subscript. simpl.
  destruct (getitem track "artists") as [[| | | | |[|artist artists]|]|] eqn:Hartists;
    try done.
  destruct (getitem track "album") as [album|] eqn:Halbum; try done.
  intros [Har Hal]%andb_prop.
  destruct (has_keys_getitem _ _ "id" Htk) as [x_id Hid]; [set_solver|].
  destruct (has_keys_getitem _ _ "name" Htk) as [x_name Hname]; [set_solver|].
  destruct (has_keys_getitem _ _ "duration_ms" Htk) as [x_dur Hdur]; [set_solver|].
  destruct (has_keys_getitem _ _ "popularity" Htk) as [x_pop Hpop]; [set_solver|].
  destruct (has_keys_getitem _ _ "explicit" Htk) as [x_exp Hexp]; [set_solver|].
  destruct (has_keys_getitem _ _ "name" Har) as [a_name Haname]; [set_solver|].
  destruct (has_keys_getitem _ _ "id" Har) as [a_id Haid]; [set_solver|].
  destruct (has_keys_getitem _ _ "name" Hal) as [l_name Hlname]; [set_solver|].
  destruct (has_keys_getitem _ _ "id" Hal) as [l_id Hlid]; [set_solver|].
  destruct (has_keys_getitem _ _ "release_date" Hal) as [l_date Hldate]; [set_solver|].
  destruct (has_keys_getitem _ _ "total_tracks" Hal) as [l_total Hltotal]; [set_solver|].
  exists s. eexists. split; [|split; [|split; [|split]]].
  - unfold track_fields, subscript, subscript_int, slice, pure_value. simpl.
    rewrite Htrack, Hplayed. simpl.
    rewrite Hid, Hname, Hartists, Halbum, Hdur, Hpop, Hexp. simpl.
    rewrite Haname, Haid, Hlname, Hlid, Hldate, Hltotal. simpl. reflexivity.
  - reflexivity.
  - reflexivity.
  - reflexivity.
  - reflexivity.
Qed.

(** One step for each entry of [track_fields]: name its value, or leave at
    the entry that raises. *)
Ltac read_fields :=
  repeat match goal with
  | |- context [mbind _ ?r] =>
      let H := fresh "H" in
      destruct r eqn:H; cbn [mbind result_bind]; [|discriminate]
  end.

(** Where the entries of a record come from. *)
Lemma track_fields_sources item fields :
  track_fields item = Return fields ->
  fields.*1 = take 14 record_keys
  /\ (VDict fields).["track_id"] = item.["track"].["id"]
  /\ (VDict fields).["name"] = item.["track"].["name"]
  /\ (VDict fields).["played_at"] = item.["played_at"]
  /\ (VDict fields).["played_date"] = slice item.["played_at"] 0 10
  /\ (VDict fields).["played_hour"] = slice item.["played_at"] 11 13.
Proof.
  unfold track_fields.
  read_fields.
  intros [= <-]. repeat split.
Qed.

(** *** Objects without newlines in their floats *)

Lemma plain_assoc k d x :
  forallb (fun '(_, y) => plain_floats y) d = true ->
  assoc k d = Some x -> plain_floats x = true.
Proof.
  induction d as [|[k' y] d IH]; cbn [assoc forallb]; [done|].
  intros [Hy Hd]%andb_prop. destruct (String.eqb k k'); [congruence|by apply IH].
Qed.

Lemma plain_lookup (l : list value) i x :
  forallb plain_floats l = true -> l !! i = Some x -> plain_floats x = true.
Proof.
  rewrite forallb_forall. intros Hl Hi. apply Hl, list_elem_of_In.
  by apply list_elem_of_lookup_2 in Hi.
Qed.

Lemma plain_subscript r k x :
  (forall v, r = Return v -> plain_floats v = true) ->
  r.[k] = Return x -> plain_floats x = true.
Proof.
  intros Hr. destruct r as [v|e]; [|done]. specialize (Hr v eq_refl).
  unfold subscript. cbn [mbind result_bind].
  destruct v as [| | | | | |d]; try done. cbn [getitem].
  destruct (assoc k d) as [y|] eqn:Hy; [|done].
  intros [= <-]. by apply (plain_assoc k d).
Qed.

Lemma plain_subscript_int r i x :
  (forall v, r = Return v -> plain_floats v = true) ->
  r.[#i] = Return x -> plain_floats x = true.
Proof.
  intros Hr. destruct r as [v|e]; [|done]. specialize (Hr v eq_refl).
  unfold subscript_int. cbn [mbind result_bind].
  destruct v as [| | | |s|l|d]; try done; cbn [getitem_int].
  - destruct (seq_index (chars s) i); [|done]. by intros [= <-].
  - unfold seq_index.
    destruct (_ && _); [|destruct (_ && _); [|done]];
      (destruct (l !! _) as [y|] eqn:Hy; [|done]);
      intros [= <-]; by eapply plain_lookup.
Qed.


Lemma plain_slice r a b x :
  (forall v, r = Return v -> plain_floats v = true) ->
  slice r a b = Return x -> plain_floats x = true.
Proof.
  intros Hr. destruct r as [v|e]; [|done]. specialize (Hr v eq_refl).
  unfold slice. cbn [mbind result_bind].
  destruct v as [| | | |s|l|d]; try done; cbn [getslice]; intros [= <-]; [done|].
  cbn [plain_floats] in *. rewrite forallb_forall in *. intros y Hy. apply Hr.
  apply list_elem_of_In in Hy. apply list_elem_of_In.
  by apply subseteq_take, subseteq_drop in Hy.
Qed.

(** Follows a path of subscripts from a plain object. *)
Ltac plain_path :=
  repeat first
    [ eassumption
    | eapply plain_subscript; [|eassumption]
    | eapply plain_subscript_int; [|eassumption]
    | eapply plain_slice; [|eassumption]
    | intros ? [= <-]
    | intros ? ? ].

Lemma track_fields_plain item fields :
  plain_floats item = true ->
  track_fields item = Return fields ->
  plain_floats (VDict fields) = true.
Proof.
  intros Hitem. unfold track_fields.
  read_fields.
  intros [= <-]. cbn [plain_floats forallb].
  repeat (apply andb_true_intro; split); try done; plain_path.
Qed.

(** *** Running computations *)

Section Run.
Context (C : Collaborators).

Lemma bind_run {A B} (m : M A) (f : A -> M B) (w : World) :
  (m ≫= f) w =
  match m w with
  | (Return a, w') => f a w'
  | (Raise e, w') => (Raise e, w')
  end.
Proof. reflexivity. Qed.

Lemma eval_run {A} (r : result A) (w : World) : eval r w = (r, w).
Proof. reflexivity. Qed.

Lemma bind_return {A B} (m : M A) (f : A -> M B) w a w' :
  m w = (Return a, w') -> (m ≫= f) w = f a w'.
Proof. intros H. by rewrite bind_run, H. Qed.

Lemma bind_raise {A B} (m : M A) (f : A -> M B) w e w' :
  m w = (Raise e, w') -> (m ≫= f) w = (Raise e, w').
Proof. intros H. by rewrite bind_run, H. Qed.

Lemma later_tick n w : later n (tick w) = later (S n) w.
Proof. unfold later. by rewrite <- Nat.iter_succ_r. Qed.

(* the record built from [fields] at the clock reading of [w] *)
Local Abbreviation stamped fields w :=
  (VDict (fields ++
     [("collection_timestamp", VStr (isoformat (clock C (now_calls w))))])).

Lemma track_data_return item fields w :
  track_fields item = Return fields ->
  track_data C item w = (Return (stamped fields w), tick w).
Proof. intros H. unfold track_data, eval. rewrite bind_run, H. reflexivity. Qed.

Lemma track_data_raise item e w :
  track_fields item = Raise e -> track_data C item w = (Raise e, w).
Proof. intros H. unfold track_data, eval. by rewrite bind_run, H. Qed.


(** The loop on well-formed items: one record per item, in order, the k-th
    one stamped with the k-th reading of the clock. *)
Lemma for_item_in_ok items all_tracks w :
  Forall (fun it => is_raise (track_fields it) = false) items ->
  exists recs : list value,
    for_item_in C items all_tracks w =
      (Return (all_tracks ++ recs), later (length items) w)
    /\ length recs = length items
    /\ forall k it, items !! k = Some it ->
         exists t, recs !! k = Some t
           /\ track_data C it (later k w) = (Return t, later (S k) w).
Proof.
  intros Hok. revert all_tracks w.
  induction Hok as [|it items Hit _ IH]; intros all_tracks w.
  - exists []. simpl. rewrite app_nil_r. by repeat split.
  - destruct (track_fields it) as [fields|] eqn:Hf; [|done].
    pose proof (track_data_return it fields w Hf) as Htd.
    destruct (IH (all_tracks ++ [stamped fields w]) (tick w))
      as (recs & Hrun & Hlen & Hidx).
    eexists (_ :: recs). split; [|split].
    + simpl. rewrite (bind_return _ _ _ _ _ Htd), Hrun, later_tick.
      by rewrite <- app_assoc.
    + simpl. by rewrite Hlen.
    + intros [|k] it' Hk; simpl in Hk.
      * injection Hk as <-. eexists. split; [done|]. exact Htd.
      * destruct (Hidx k it' Hk) as (t & Ht & Hrun').
        exists t. split; [done|]. by rewrite !later_tick in Hrun'.
Qed.

(** The loop on a list with an item whose fields cannot be read: the error of
    the first such item leaves the loop, with the records built so far. *)
Lemma for_item_in_raise items all_tracks w :
  Exists (fun it => is_raise (track_fields it) = true) items ->
  exists e k, for_item_in C items all_tracks w = (Raise e, later k w)
    /\ (k < length items)%nat
    /\ exists it, items !! k = Some it /\ track_fields it = Raise e.
Proof.
  revert all_tracks w. induction items as [|it items IH]; intros all_tracks w Hex.
  - by apply Exists_nil in Hex.
  - destruct (track_fields it) as [fields|e] eqn:Hf.
    + apply Exists_cons in Hex as [Hit|Hex]; [by rewrite Hf in Hit|].
      destruct (IH (all_tracks ++ [stamped fields w]) (tick w) Hex) as (e & k & Hrun & Hk & it' & Hit' & He).
      exists e, (S k). split; [|split].
      * simpl. rewrite (bind_return _ _ _ _ _ (track_data_return it fields w Hf)).
        by rewrite Hrun, later_tick.
      * simpl. lia.
      * by exists it'.
    + exists e, 0%nat. split; [|split].
      * simpl. by rewrite (bind_raise _ _ _ _ _ (track_data_raise it e w Hf)).
      * simpl. lia.
      * by exists it.
Qed.

(** The loop touches nothing but the clock. *)
Lemma for_item_in_world items all_tracks w :
  exists k, (for_item_in C items all_tracks w).2 = later k w.
Proof.
  revert all_tracks w. induction items as [|it items IH]; intros all_tracks w.
  - by exists 0%nat.
  - simpl. rewrite bind_run. destruct (track_fields it) as [fields|e] eqn:Hf.
    + rewrite (track_data_return it fields w Hf).
      destruct (IH (all_tracks ++ [stamped fields w]) (tick w)) as [k Hk].
      exists (S k). by rewrite Hk, later_tick.
    + rewrite (track_data_raise it e w Hf). by exists 0%nat.
Qed.

Lemma sp_call_run sp_client w :
  sp_current_user_recently_played sp_client target_count w =
    ((current_user_recently_played sp_client target_count (files w)).1,
     fetched sp_client w).
Proof.
  unfold sp_current_user_recently_played, fetched. simpl.
  by destruct (current_user_recently_played _ _ _).
Qed.

(** [get_recent_tracks] always returns: one call of the endpoint, then only
    readings of the clock. *)
Lemma get_recent_tracks_total sp_client w :
  exists tracks k,
    get_recent_tracks C sp_client w = (Return tracks, later k (fetched sp_client w)).
Proof.
  unfold get_recent_tracks, try_except. rewrite bind_run, sp_call_run.
  destruct (current_user_recently_played _ _ _).1 as [results|e];
    [|by exists [], 0%nat].
  rewrite bind_run, eval_run.
  destruct (dict_get results "items" (VList [])) as [items|e];
    [|by exists [], 0%nat].
  destruct (truthy items); simpl; [|by exists [], 0%nat].
  rewrite bind_run, eval_run.
  destruct (iterate items) as [elements|e]; [|by exists [], 0%nat].
  destruct (for_item_in_world elements [] (fetched sp_client w)) as [k Hk].
  destruct (for_item_in C elements [] (fetched sp_client w)) as [[tracks|e] w'];
    simpl in Hk; subst w'.
  - by exists tracks, k.
  - by exists [], k.
Qed.


(** The fetch when the endpoint raises: the error is caught. *)
Lemma get_recent_tracks_failed sp_client w e :
  (current_user_recently_played sp_client target_count (files w)).1 = Raise e ->
  get_recent_tracks C sp_client w = (Return [], fetched sp_client w).
Proof.
  intros Hapi. unfold get_recent_tracks, try_except.
  by rewrite bind_run, sp_call_run, Hapi.
Qed.

(** The fetch when the response has no items. *)
Lemma get_recent_tracks_empty sp_client w results items :
  (current_user_recently_played sp_client target_count (files w)).1 = Return results ->
  dict_get results "items" (VList []) = Return items ->
  truthy items = false ->
  get_recent_tracks C sp_client w = (Return [], fetched sp_client w).
Proof.
  intros Hapi Hitems Hempty. unfold get_recent_tracks, try_except.
  rewrite bind_run, sp_call_run, Hapi. rewrite bind_run, eval_run, Hitems.
  by rewrite Hempty.
Qed.

(** The fetch when the response has a non-empty list of items. *)
Lemma get_recent_tracks_items sp_client w results item items :
  (current_user_recently_played sp_client target_count (files w)).1 = Return results ->
  response_items results = Some (item :: items) ->
  get_recent_tracks C sp_client w =
    match for_item_in C (item :: items) [] (fetched sp_client w) with
    | (Return tracks, w') => (Return tracks, w')
    | (Raise _, w') => (Return [], w')
    end.
Proof.
  intros Hapi Hitems. unfold get_recent_tracks, try_except.
  rewrite bind_run, sp_call_run, Hapi. rewrite bind_run, eval_run.
  unfold response_items, subscript, pure_value in Hitems. simpl in Hitems.
  destruct results as [| | | | | |d]; simpl in Hitems; try done.
  simpl. destruct (assoc "items" d) as [[| | | | |l|]|]; simpl in Hitems; try done.
  injection Hitems as ->. simpl. by rewrite bind_run, eval_run.
Qed.


(** *** The writes *)

Lemma s3_put_object_run bucket key body w :
  s3_put_object C bucket key body w =
    match put_object_error C (trace w) bucket key body with
    | Some e => (Raise e, record (PutObject bucket key body) w)
    | None =>
        (Return (),
         set_objects (<[(bucket, key) := body]> (objects w))
                     (record (PutObject bucket key body) w))
    end.
Proof. reflexivity. Qed.

Lemma s3_put_now_calls bucket key body w :
  now_calls (s3_put_object C bucket key body w).2 = now_calls w.
Proof. rewrite s3_put_object_run. by destruct (put_object_error _ _ _ _ _). Qed.

Lemma upload_run content bucket key w :
  _upload_string_to_s3 C content bucket key w =
    (Return (negb (is_raise (s3_put_object C bucket key (encode_utf8 content) w).1)),
     (s3_put_object C bucket key (encode_utf8 content) w).2).
Proof.
  unfold _upload_string_to_s3, try_except. rewrite bind_run.
  by destruct (s3_put_object C bucket key (encode_utf8 content) w) as [[[]|e] w'].
Qed.

Lemma save_json_for_glue_run tracks bucket file_prefix w :
  let key := glue_file_name file_prefix (clock C (now_calls w))
                            (clock C (S (now_calls w))) in
  let put := s3_put_object C bucket key (encode_utf8 (jsonl_content tracks))
                           (tick (tick w)) in
  save_json_for_glue C tracks bucket file_prefix w =
    (Return (if is_raise put.1 then None
             else Some ("s3://" +:+ bucket +:+ "/" +:+ key)),
     put.2).
Proof.
  unfold save_json_for_glue. simpl. rewrite bind_run. unfold now at 1.
  rewrite bind_run. unfold now at 1. rewrite bind_run, upload_run.
  unfold glue_file_name. simpl.
  by destruct (is_raise _).
Qed.

Lemma save_regular_json_run tracks bucket file_prefix w :
  let key := regular_file_name file_prefix (clock C (now_calls w)) in
  let put := s3_put_object C bucket key (encode_utf8 (json_content tracks))
                           (tick w) in
  save_regular_json C tracks bucket file_prefix w =
    (Return (if is_raise put.1 then None
             else Some ("s3://" +:+ bucket +:+ "/" +:+ key)),
     put.2).
Proof.
  unfold save_regular_json. simpl. rewrite bind_run. unfold now at 1.
  rewrite bind_run, upload_run. unfold regular_file_name. simpl.
  by destruct (is_raise _).
Qed.


(** [store] on a non-empty batch: both writes are attempted, one after the
    other, and the answer is the success response only if neither raised. *)
Lemma store_run item tracks s3_bucket w :
  let all := item :: tracks in
  let key1 := glue_file_name "raw/historial" (clock C (now_calls w))
                             (clock C (S (now_calls w))) in
  let put1 := s3_put_object C s3_bucket key1 (encode_utf8 (jsonl_content all))
                            (tick (tick w)) in
  let key2 := regular_file_name "processed/historial" (clock C (now_calls put1.2)) in
  let put2 := s3_put_object C s3_bucket key2 (encode_utf8 (json_content all))
                            (tick put1.2) in
  store C all s3_bucket w =
    (Return (if negb (is_raise put1.1) && negb (is_raise put2.1)
             then ok_response else no_new_response),
     put2.2).
Proof.
  unfold store. change (truthy (VList (item :: tracks))) with true. cbv iota.
  rewrite bind_run, save_json_for_glue_run. cbv zeta.
  rewrite bind_run, save_regular_json_run. cbv zeta.
  destruct (is_raise _); [done|].
  destruct (is_raise _); [done|].
  unfold url_truthy, truthy. simpl. reflexivity.
Qed.

Lemma store_nothing s3_bucket w :
  store C [] s3_bucket w = (Return no_new_response, w).
Proof. reflexivity. Qed.

(** *** The steps before the fetch *)

Lemma cache_handoff_copy w seed :
  files w !! tmp_cache_path = None ->
  files w !! packaged_cache_path = Some (File seed) ->
  cache_handoff w =
    (Return (),
     set_files (<[tmp_cache_path := File seed]> (files w))
               (record (ShutilCopy packaged_cache_path tmp_cache_path) w)).
Proof.
  intros Htmp Hseed. unfold cache_handoff, path_exists, shutil_copy.
  rewrite !bind_run. rewrite Htmp. simpl. rewrite Hseed. simpl.
  by rewrite Hseed.
Qed.

Lemma cache_handoff_keep w :
  is_Some (files w !! tmp_cache_path) -> cache_handoff w = (Return (), w).
Proof.
  intros Htmp. unfold cache_handoff, path_exists. rewrite !bind_run.
  by rewrite bool_decide_eq_true_2.
Qed.

Lemma cache_handoff_extends w :
  exists evs,
    extends_by evs w (cache_handoff w).2
    /\ objects (cache_handoff w).2 = objects w
    /\ Forall (fun ev => is_copy ev = true) evs.
Proof.
  unfold cache_handoff, path_exists, shutil_copy. rewrite !bind_run.
  destruct (files w !! tmp_cache_path) as [n|] eqn:Htmp; simpl.
  { exists []. unfold extends_by. by rewrite app_nil_r. }
  destruct (files w !! packaged_cache_path) as [[seed|]|] eqn:Hseed; simpl.
  - exists [ShutilCopy packaged_cache_path tmp_cache_path].
    rewrite Hseed. simpl. repeat split. by repeat constructor.
  - exists [ShutilCopy packaged_cache_path tmp_cache_path].
    rewrite Hseed. simpl. repeat split. by repeat constructor.
  - exists []. unfold extends_by. by rewrite app_nil_r.
Qed.

Lemma get_configuration_run w :
  get_configuration w =
    match environ w !! "PARAMETER_PATH", environ w !! "S3_BUCKET" with
    | Some parameter_path, Some s3_bucket => (Return (parameter_path, s3_bucket), w)
    | None, _ => (Raise (KeyError "PARAMETER_PATH"), w)
    | Some _, None => (Raise (KeyError "S3_BUCKET"), w)
    end.
Proof.
  unfold get_configuration, try_except, os_environ. rewrite bind_run.
  destruct (environ w !! "PARAMETER_PATH"); [|done].
  rewrite bind_run. by destruct (environ w !! "S3_BUCKET").
Qed.

Lemma get_secrets_world parameter_path w :
  (get_secrets C parameter_path w).2 =
    record (GetParametersByPath parameter_path true) w.
Proof.
  unfold get_secrets, try_except, ssm_get_parameters_by_path. rewrite bind_run.
  destruct (get_parameters_by_path C parameter_path) as [response|e]; [|done].
  rewrite bind_run, eval_run.
  destruct (_ ≫= _) as [params|e]; [|done].
  rewrite bind_run, eval_run.
  destruct (secrets_of params ∅) as [secrets|e]; [|done].
  by destruct (negb _).
Qed.

Lemma authenticate_world secrets w : (authenticate C secrets w).2 = w.
Proof.
  unfold authenticate. rewrite bind_run, eval_run.
  destruct (secret secrets "client-id"); [|done].
  rewrite bind_run, eval_run. destruct (secret secrets "client-secret"); [|done].
  rewrite bind_run, eval_run. destruct (secret secrets "redirect-uri"); [|done].
  by rewrite eval_run.
Qed.


Lemma extends_by_nil w : extends_by [] w w.
Proof. unfold extends_by. by rewrite app_nil_r. Qed.

Lemma extends_by_app evs1 evs2 w1 w2 w3 :
  extends_by evs1 w1 w2 -> extends_by evs2 w2 w3 -> extends_by (evs1 ++ evs2) w1 w3.
Proof.
  unfold extends_by. intros [He1 Ht1] [He2 Ht2].
  rewrite He2, He1, Ht2, Ht1. by rewrite app_assoc.
Qed.

(** [setup] makes no call but the copy of the cache and the lookup of the
    secrets, and writes nothing to S3. *)
Lemma setup_extends w :
  exists evs,
    extends_by evs w (setup C w).2
    /\ objects (setup C w).2 = objects w
    /\ Forall (fun ev => is_copy ev = true
                 \/ exists p, ev = GetParametersByPath p true) evs.
Proof.
  destruct (cache_handoff_extends w) as (evs0 & Hext0 & Hobj0 & Hevs0).
  assert (Hcopy : Forall (fun ev => is_copy ev = true
                 \/ exists p, ev = GetParametersByPath p true) evs0).
  { eapply Forall_impl; [exact Hevs0|]. intros ev Hev. by left. }
  unfold setup. rewrite bind_run.
  destruct (cache_handoff w) as [[[]|e] w0]; simpl in Hext0, Hobj0; [|by exists evs0].
  rewrite bind_run, get_configuration_run.
  destruct (environ w0 !! "PARAMETER_PATH") as [parameter_path|]; [|by exists evs0].
  destruct (environ w0 !! "S3_BUCKET") as [s3_bucket|]; [|by exists evs0].
  rewrite bind_run.
  pose proof (get_secrets_world parameter_path w0) as Hsec.
  assert (Hext1 : extends_by (evs0 ++ [GetParametersByPath parameter_path true]) w
                    (record (GetParametersByPath parameter_path true) w0)).
  { eapply extends_by_app; [exact Hext0|]. by split. }
  assert (Hall : Forall (fun ev => is_copy ev = true
                 \/ exists p, ev = GetParametersByPath p true)
                 (evs0 ++ [GetParametersByPath parameter_path true])).
  { apply Forall_app. split; [done|]. constructor; [|done]. right. by eexists. }
  destruct (get_secrets C parameter_path w0) as [[secrets|e] w1];
    simpl in Hsec; subst w1.
  2:{ by eexists. }
  rewrite bind_run.
  pose proof (authenticate_world secrets
                (record (GetParametersByPath parameter_path true) w0)) as Hauth.
  destruct (authenticate C secrets _) as [[sp|e] w2]; simpl in Hauth; subst w2;
    by eexists.
Qed.

(** The handler is [setup], then the fetch, then [store]. *)
Lemma lambda_handler_run event context w :
  lambda_handler C event context w =
    match setup C w with
    | (Return (sp, s3_bucket), w1) =>
        (get_recent_tracks C sp ≫= fun tracks => store C tracks s3_bucket) w1
    | (Raise e, w1) => (Raise e, w1)
    end.
Proof.
  unfold lambda_handler, setup. rewrite !(bind_run cache_handoff).
  destruct (cache_handoff w) as [[[]|e] w0]; [|done].
  rewrite !(bind_run get_configuration).
  destruct (get_configuration w0) as [[[parameter_path s3_bucket]|e] w1]; [|done].
  rewrite !(bind_run (get_secrets C parameter_path)).
  destruct (get_secrets C parameter_path w1) as [[secrets|e] w2]; [|done].
  rewrite !(bind_run (authenticate C secrets)).
  by destruct (authenticate C secrets w2) as [[sp|e] w3].
Qed.

(** Without one of the two variables [setup] raises before it looks up the
    secrets. *)
Lemma setup_unconfigured w :
  environ w !! "PARAMETER_PATH" = None \/ environ w !! "S3_BUCKET" = None ->
  exists e, setup C w = (Raise e, (cache_handoff w).2)
    /\ (forall u, cache_handoff w = (Return u, (cache_handoff w).2) ->
        e = if bool_decide (is_Some (environ w !! "PARAMETER_PATH"))
            then KeyError "S3_BUCKET" else KeyError "PARAMETER_PATH").
Proof.
  intros Hmissing.
  destruct (cache_handoff_extends w) as (evs0 & [Henv _] & _ & _).
  unfold setup. rewrite bind_run.
  destruct (cache_handoff w) as [[[]|e] w0]; simpl in *.
  2:{ exists e. split; [done|]. intros u Hu. discriminate. }
  rewrite bind_run, get_configuration_run, Henv.
  destruct (environ w !! "PARAMETER_PATH") as [parameter_path|].
  - destruct Hmissing as [|Hb]; [done|]. rewrite Hb.
    eexists. split; [done|]. intros _ _. by rewrite bool_decide_eq_true_2.
  - eexists. split; [done|]. intros _ _. rewrite bool_decide_eq_false_2; [done|].
    by intros [? ?].
Qed.


Lemma assoc_app_l k (d1 d2 : list (string * value)) x :
  assoc k d1 = Some x -> assoc k (d1 ++ d2) = Some x.
Proof.
  induction d1 as [|[k' v] d1 IH]; simpl; [done|].
  destruct (String.eqb k k'); [done|]. exact IH.
Qed.

(** C1, as the code has it. For a valid response with N items (N <= 50)
    [get_recent_tracks] returns N records; each has the fifteen keys of a
    record; its [played_date] is the prefix [played_at[:10]] of its own
    [played_at], and its [played_hour] is the slice [played_at[11:13]], the
    two characters that follow the first eleven of [played_at]. *)
Theorem get_recent_tracks_valid_response sp_client w results items :
  (current_user_recently_played sp_client target_count (files w)).1 = Return results ->
  response_items results = Some items ->
  valid_response target_count results = true ->
  exists tracks,
    get_recent_tracks C sp_client w =
      (Return tracks, later (length items) (fetched sp_client w))
    /\ length tracks = length items
    /\ (length items <= 50)%nat
    /\ Forall (fun t => exists d s,
         t = VDict d
         /\ d.*1 = record_keys
         /\ assoc "played_at" d = Some (VStr s)
         /\ assoc "played_date" d = Some (VStr (str_slice 0 10 s))
         /\ String.prefix (str_slice 0 10 s) s = true
         /\ assoc "played_hour" d = Some (VStr (str_slice 11 13 s))
         /\ String.prefix (str_slice 0 11 s +:+ str_slice 11 13 s) s = true)
       tracks.
Proof.
  intros Hapi Hitems Hvalid. unfold valid_response in Hvalid.
  rewrite Hitems in Hvalid. apply andb_prop in Hvalid as [Hall Hlen].
  assert (Hfields : Forall (fun it => is_raise (track_fields it) = false) items).
  { apply Forall_forall. intros it Hin.
    rewrite forallb_forall in Hall. apply list_elem_of_In, Hall in Hin.
    destruct (valid_item_fields it Hin) as (s & fields & -> & _). done. }
  destruct (for_item_in_ok items [] (fetched sp_client w) Hfields)
    as (recs & Hrun & Hrecs & Hidx).
  exists recs. split; [|split; [|split]].
  - destruct items as [|item items].
    + destruct recs; [|discriminate].
      apply (get_recent_tracks_empty sp_client w results (VList [])); [done| |done].
      unfold response_items, subscript, pure_value in Hitems. simpl in Hitems.
      destruct results as [| | | | | |d]; simpl in Hitems; try done.
      simpl. by destruct (assoc "items" d) as [[| | | | |[|]|]|].
    + rewrite (get_recent_tracks_items sp_client w results item items Hapi Hitems).
      by rewrite Hrun.
  - done.
  - apply Z.leb_le in Hlen. unfold target_count in Hlen. lia.
  - apply Forall_lookup. intros k t Hk.
    destruct (lookup_lt_is_Some_2 items k) as [it Hit].
    { rewrite <- Hrecs. by apply lookup_lt_Some in Hk. }
    destruct (Hidx k it Hit) as (t' & Ht' & Htd). rewrite Hk in Ht'.
    injection Ht' as <-.
    rewrite forallb_forall in Hall.
    assert (Hv : valid_item it = true).
    { apply Hall, list_elem_of_In, list_elem_of_lookup. by exists k. }
    destruct (valid_item_fields it Hv) as (s & fields & Hf & Hkeys & Hat & Hdate & Hhour).
    rewrite (track_data_return it fields _ Hf) in Htd. injection Htd as Ht.
    eexists _, s. split; [by symmetry|]. split; [|split; [|split; [|split; [|split]]]].
    + rewrite fmap_app, Hkeys. reflexivity.
    + by apply assoc_app_l.
    + by apply assoc_app_l.
    + apply prefix_substring.
    + by apply assoc_app_l.
    + unfold str_slice. rewrite substring_adjacent. apply prefix_substring.
Qed.


Lemma later_fields n w :
  files (later n w) = files w /\ environ (later n w) = environ w
  /\ objects (later n w) = objects w /\ trace (later n w) = trace w
  /\ now_calls (later n w) = (n + now_calls w)%nat.
Proof.
  induction n as [|n IH]; [done|]. unfold later in *. simpl.
  destruct IH as (? & ? & ? & ? & ?). repeat split; try done. simpl. by f_equal.
Qed.

Lemma filter_put_copies evs :
  Forall (fun ev => is_copy ev = true \/ exists p, ev = GetParametersByPath p true) evs ->
  List.filter is_put_object evs = [].
Proof.
  induction 1 as [|ev evs Hev _ IH]; [done|]. simpl.
  destruct Hev as [Hev|[p ->]]; [by destruct ev|done].
Qed.

(** Once [setup] has returned the handler returns too, with one of its two
    responses. *)
Lemma after_setup_returns sp s3_bucket w1 :
  exists v w',
    (get_recent_tracks C sp ≫= fun tracks => store C tracks s3_bucket) w1
      = (Return v, w')
    /\ (v = ok_response \/ v = no_new_response).
Proof.
  destruct (get_recent_tracks_total sp w1) as (tracks & k & Hfetch).
  rewrite (bind_return _ _ _ _ _ Hfetch).
  destruct tracks as [|item tracks].
  - rewrite store_nothing. eexists _, _. split; [done|by right].
  - rewrite store_run. cbv zeta. eexists _, _. split; [done|].
    destruct (negb _ && negb _); [by left|by right].
Qed.

Lemma trace_tick w : trace (tick w) = trace w.
Proof. reflexivity. Qed.

Lemma s3_put_trace bucket key body w :
  trace (s3_put_object C bucket key body w).2 = trace w ++ [PutObject bucket key body].
Proof. rewrite s3_put_object_run. by destruct (put_object_error _ _ _ _ _). Qed.

(** After [setup] the handler makes one call of the endpoint and then only
    S3 writes. *)
Lemma after_setup_trace sp s3_bucket w1 :
  exists evs,
    trace ((get_recent_tracks C sp ≫= fun tracks => store C tracks s3_bucket) w1).2
      = trace w1 ++ CurrentUserRecentlyPlayed target_count :: evs
    /\ Forall (fun ev => is_put_object ev = true) evs.
Proof.
  destruct (get_recent_tracks_total sp w1) as (tracks & k & Hfetch).
  rewrite (bind_return _ _ _ _ _ Hfetch).
  destruct (later_fields k (fetched sp w1)) as (_ & _ & _ & Htrace & _).
  destruct tracks as [|item tracks].
  - rewrite store_nothing. exists []. cbn [snd]. by rewrite Htrace.
  - rewrite store_run. cbv zeta. cbn [snd].
    rewrite s3_put_trace, trace_tick, s3_put_trace, !trace_tick, Htrace.
    eexists [_; _]. split.
    + cbn [trace fetched set_files record]. by rewrite <- !app_assoc.
    + by repeat constructor.
Qed.

(** Only the handoff copies files. *)
Lemma lambda_handler_copies event context w :
  List.filter is_copy (trace (lambda_handler C event context w).2)
  = List.filter is_copy (trace (cache_handoff w).2).
Proof.
  unfold lambda_handler. rewrite bind_run.
  destruct (cache_handoff w) as [[[]|e] w0]; [|done]. cbn [snd].
  rewrite bind_run, get_configuration_run.
  destruct (environ w0 !! "PARAMETER_PATH") as [parameter_path|]; [|done].
  destruct (environ w0 !! "S3_BUCKET") as [s3_bucket|]; [|done].
  rewrite bind_run.
  pose proof (get_secrets_world parameter_path w0) as Hsec.
  assert (Hssm : List.filter is_copy
                   (trace (record (GetParametersByPath parameter_path true) w0))
                 = List.filter is_copy (trace w0)).
  { cbn [trace record]. rewrite List.filter_app. simpl. by rewrite app_nil_r. }
  destruct (get_secrets C parameter_path w0) as [[secrets|e] w1];
    simpl in Hsec; subst w1; [|done].
  rewrite bind_run.
  pose proof (authenticate_world secrets
                (record (GetParametersByPath parameter_path true) w0)) as Hauth.
  destruct (authenticate C secrets _) as [[sp|e] w2]; simpl in Hauth; subst w2;
    [|done].
  destruct (after_setup_trace sp s3_bucket
              (record (GetParametersByPath parameter_path true) w0))
    as (evs & -> & Hevs).
  rewrite List.filter_app, Hssm.
  assert (Hnone : List.filter is_copy (CurrentUserRecentlyPlayed target_count :: evs) = []).
  { simpl. clear -Hevs. induction Hevs as [|ev evs Hev _ IH]; [done|].
    simpl. by destruct ev. }
  by rewrite Hnone, app_nil_r.
Qed.

(** The items whose normalization raises are the malformed ones. *)
Lemma track_fields_malformed item :
  is_raise (track_fields item) = malformed item.
Proof.
  unfold malformed, required_fields, read, track_fields.
  cbn [existsb fold_left]. unfold pure_value.
  repeat match goal with
  | |- context [@mbind _ _ _ _ _ (subscript ?r ?k)] =>
      destruct (subscript r k) as [?|?]; cbn [mbind result_bind is_raise orb];
      [|reflexivity]
  end.
  match goal with |- context [slice (Return ?x) _ _] => by destruct x end.
Qed.

(** C5, as the code has it.  An item is malformed when one of the fields the
    loop reads is missing ([track], its [id], [name], [duration_ms],
    [popularity], [explicit], [artists[0]] with [name] and [id], [album] with
    [name], [id], [release_date], [total_tracks], or [played_at]) or when
    [played_at] has no slice.  When an item of a non-empty response is
    malformed, its normalization raises, the error leaves the loop (no record
    of the batch is kept, no later item is looked at), and the [except] clause
    of [get_recent_tracks] catches it: the fetch returns the empty list.
    When no item is malformed nothing is raised and every item gives a record;
    a [played_at] string that is no timestamp is not an error. *)
Theorem malformed_item_aborts_batch sp_client w results item items :
  (current_user_recently_played sp_client target_count (files w)).1 = Return results ->
  response_items results = Some (item :: items) ->
  (Exists (fun it => malformed it = true) (item :: items) ->
   exists e k,
     (exists it, (item :: items) !! k = Some it
                 /\ malformed it = true /\ track_fields it = Raise e)
     /\ for_item_in C (item :: items) [] (fetched sp_client w) =
          (Raise e, later k (fetched sp_client w))
     /\ get_recent_tracks C sp_client w = (Return [], later k (fetched sp_client w)))
  /\ (Forall (fun it => malformed it = false) (item :: items) ->
      exists tracks,
        get_recent_tracks C sp_client w =
          (Return tracks, later (length (item :: items)) (fetched sp_client w))
        /\ length tracks = length (item :: items)).
Proof.
  intros Hapi Hitems.
  rewrite (get_recent_tracks_items sp_client w results item items Hapi Hitems).
  split.
  - intros Hbad.
    assert (Hraise : Exists (fun it => is_raise (track_fields it) = true) (item :: items)).
    { eapply Exists_impl; [exact Hbad|]. intros it Hit.
      by rewrite track_fields_malformed. }
    destruct (for_item_in_raise (item :: items) [] (fetched sp_client w) Hraise)
      as (e & k & Hrun & _ & it & Hit & He).
    exists e, k. split; [|by rewrite Hrun].
    exists it. split; [done|]. split; [|done].
    by rewrite <- track_fields_malformed, He.
  - intros Hgood.
    assert (Hok : Forall (fun it => is_raise (track_fields it) = false) (item :: items)).
    { eapply Forall_impl; [exact Hgood|]. intros it Hit.
      by rewrite track_fields_malformed. }
    destruct (for_item_in_ok (item :: items) [] (fetched sp_client w) Hok)
      as (recs & Hrun & Hlen & _).
    rewrite Hrun. by exists recs.
Qed.

(** C3. When [/tmp/.cache] is missing and the packaged cache is a file, the
    handoff copies it, once: afterwards [/tmp/.cache] has the content of the
    seed, a second handoff changes nothing, and the whole run of the handler
    makes this one copy and no other.  When [/tmp/.cache] exists the handoff
    changes nothing: the file keeps its content and the run of the handler
    makes no copy. *)
Theorem cache_handoff_first_write_wins event context w :
  (forall seed,
     files w !! tmp_cache_path = None ->
     files w !! packaged_cache_path = Some (File seed) ->
     exists w',
       cache_handoff w = (Return (), w')
       /\ files w' !! tmp_cache_path = Some (File seed)
       /\ files w' !! packaged_cache_path = Some (File seed)
       /\ trace w' = trace w ++ [ShutilCopy packaged_cache_path tmp_cache_path]
       /\ cache_handoff w' = (Return (), w')
       /\ List.filter is_copy (trace (lambda_handler C event context w).2)
          = List.filter is_copy (trace w)
            ++ [ShutilCopy packaged_cache_path tmp_cache_path])
  /\ (forall cache,
        files w !! tmp_cache_path = Some cache ->
        cache_handoff w = (Return (), w)
        /\ List.filter is_copy (trace (lambda_handler C event context w).2)
           = List.filter is_copy (trace w)).
Proof.
  split.
  - intros seed Htmp Hseed.
    pose proof (cache_handoff_copy w seed Htmp Hseed) as Hcopy.
    eexists. split; [exact Hcopy|].
    cbn [files trace set_files record]. split; [|split; [|split; [|split]]].
    + apply lookup_insert_eq.
    + by rewrite lookup_insert_ne.
    + done.
    + apply cache_handoff_keep. cbn [files set_files].
      rewrite lookup_insert_eq. by eexists.
    + rewrite lambda_handler_copies, Hcopy. cbn [snd trace set_files record].
      by rewrite List.filter_app.
  - intros cache Htmp.
    assert (Hkeep : cache_handoff w = (Return (), w)).
    { apply cache_handoff_keep. by eexists. }
    split; [done|]. by rewrite lambda_handler_copies, Hkeep.
Qed.

(** C6. Without [PARAMETER_PATH] or without [S3_BUCKET] the handler raises,
    and the run made no network call: no call of Parameter Store, of the
    Spotify endpoint or of S3 was added to the trace, and the buckets are as
    they were.  When the handoff itself did not fail the error is the
    [KeyError] of the first missing variable. *)
Theorem missing_configuration_aborts event context w :
  environ w !! "PARAMETER_PATH" = None \/ environ w !! "S3_BUCKET" = None ->
  exists e w',
    lambda_handler C event context w = (Raise e, w')
    /\ objects w' = objects w
    /\ List.filter is_network_call (trace w') = List.filter is_network_call (trace w)
    /\ (forall u, cache_handoff w = (Return u, w') ->
        e = if bool_decide (is_Some (environ w !! "PARAMETER_PATH"))
            then KeyError "S3_BUCKET" else KeyError "PARAMETER_PATH").
Proof.
  intros Hmissing. destruct (setup_unconfigured w Hmissing) as (e & Hsetup & He).
  destruct (cache_handoff_extends w) as (evs & [_ Htrace] & Hobj & Hcopies).
  exists e, (cache_handoff w).2. split; [|split; [|split]].
  - by rewrite lambda_handler_run, Hsetup.
  - exact Hobj.
  - rewrite Htrace, List.filter_app.
    assert (Hnone : List.filter is_network_call evs = []).
    { clear -Hcopies. induction Hcopies as [|ev evs Hev _ IH]; [done|].
      simpl. destruct ev; try done. }
    by rewrite Hnone, app_nil_r.
  - exact He.
Qed.


(** C8. When the fetch gives no record, because the endpoint raised or
    because the response had no items, the handler writes nothing to S3 and
    returns the response that says no new songs were processed. *)
Theorem empty_fetch_is_no_new_data event context w sp s3_bucket w1 :
  setup C w = (Return (sp, s3_bucket), w1) ->
  let api := (current_user_recently_played sp target_count (files w1)).1 in
  ((exists e, api = Raise e)
   \/ (exists results items,
         api = Return results
         /\ dict_get results "items" (VList []) = Return items
         /\ truthy items = false) ->
   (get_recent_tracks C sp w1).1 = Return [])
  /\ ((get_recent_tracks C sp w1).1 = Return [] ->
      exists w',
        lambda_handler C event context w = (Return no_new_response, w')
        /\ objects w' = objects w
        /\ List.filter is_put_object (trace w') = List.filter is_put_object (trace w)).
Proof.
  intros Hsetup api. split.
  - intros [[e He]|(results & items & Hres & Hitems & Hempty)].
    + by rewrite (get_recent_tracks_failed sp w1 e He).
    + by rewrite (get_recent_tracks_empty sp w1 results items Hres Hitems Hempty).
  - intros Hnone.
    destruct (get_recent_tracks_total sp w1) as (tracks & k & Hfetch).
    rewrite Hfetch in Hnone. simpl in Hnone. injection Hnone as ->.
    exists (later k (fetched sp w1)). split; [|split].
    + rewrite lambda_handler_run, Hsetup.
      by rewrite (bind_return _ _ _ _ _ Hfetch), store_nothing.
    + destruct (later_fields k (fetched sp w1)) as (_ & _ & -> & _).
      destruct (setup_extends w) as (evs & _ & Hobj & _).
      rewrite Hsetup in Hobj. exact Hobj.
    + destruct (later_fields k (fetched sp w1)) as (_ & _ & _ & -> & _).
      destruct (setup_extends w) as (evs & [_ Htrace] & _ & Hevs).
      rewrite Hsetup in Htrace. simpl in Htrace. simpl. rewrite Htrace.
      rewrite !List.filter_app, (filter_put_copies evs Hevs). simpl.
      by rewrite !app_nil_r.
Qed.

(** C9. Whenever the handler returns, its response has [statusCode] 200: it
    is one of the two responses of the code, both with that status.  And it
    does return whenever the steps before the fetch succeed, whatever the
    endpoint and S3 then do. *)
Theorem status_code_is_always_200 event context w :
  (forall v w',
     lambda_handler C event context w = (Return v, w') ->
     v.["statusCode"] = Return (VInt 200)
     /\ (v = ok_response \/ v = no_new_response))
  /\ (forall sp s3_bucket w1,
        setup C w = (Return (sp, s3_bucket), w1) ->
        exists v w', lambda_handler C event context w = (Return v, w')).
Proof.
  split.
  - intros v w'. rewrite lambda_handler_run.
    destruct (setup C w) as [[[sp s3_bucket]|e] w1]; [|done].
    destruct (after_setup_returns sp s3_bucket w1) as (v' & w'' & -> & Hv).
    intros [= <- <-]. split; [|done]. by destruct Hv as [->| ->].
  - intros sp s3_bucket w1 Hsetup. rewrite lambda_handler_run, Hsetup.
    destruct (after_setup_returns sp s3_bucket w1) as (v & w' & -> & _).
    by eexists _, _.
Qed.

(** C4, as the code has it.  When exactly one of the two writes raises, the
    handler does not raise and does not answer with the success response: it
    returns the response that says nothing was processed, with status code
    200, the one it gives when there is nothing new.  The object of the write
    that succeeded is in the bucket: both writes were attempted, nothing was
    removed. *)
Theorem partial_write_answers_no_new_data event context w sp s3_bucket w1 item tracks w2 :
  setup C w = (Return (sp, s3_bucket), w1) ->
  get_recent_tracks C sp w1 = (Return (item :: tracks), w2) ->
  let all := item :: tracks in
  let key1 := glue_file_name "raw/historial" (clock C (now_calls w2))
                             (clock C (S (now_calls w2))) in
  let body1 := encode_utf8 (jsonl_content all) in
  let key2 := regular_file_name "processed/historial"
                                (clock C (S (S (now_calls w2)))) in
  let body2 := encode_utf8 (json_content all) in
  let err1 := put_object_error C (trace w2) s3_bucket key1 body1 in
  let err2 := put_object_error C (trace w2 ++ [PutObject s3_bucket key1 body1])
                               s3_bucket key2 body2 in
  (err1 = None /\ err2 <> None) \/ (err1 <> None /\ err2 = None) ->
  exists w',
    lambda_handler C event context w = (Return no_new_response, w')
    /\ no_new_response <> ok_response
    /\ trace w' = trace w2 ++ [PutObject s3_bucket key1 body1;
                               PutObject s3_bucket key2 body2]
    /\ (err1 = None -> objects w' = <[(s3_bucket, key1) := body1]> (objects w2))
    /\ (err2 = None -> objects w' = <[(s3_bucket, key2) := body2]> (objects w2))
    /\ (err1 = None -> objects w' !! (s3_bucket, key1) = Some body1)
    /\ (err2 = None -> objects w' !! (s3_bucket, key2) = Some body2)
    /\ no_new_response.["statusCode"] = Return (VInt 200)
    /\ no_new_response.["body"]
       = Return (VStr (dumps true None (VStr "No se procesaron nuevas canciones.")))
    /\ store C [] s3_bucket w2 = (Return no_new_response, w2).
Proof.
  intros Hsetup Hfetch all key1 body1 key2 body2 err1 err2 Hone.
  rewrite lambda_handler_run, Hsetup, (bind_return _ _ _ _ _ Hfetch), store_run.
  cbv zeta. rewrite s3_put_now_calls.
  change (now_calls (tick (tick w2))) with (S (S (now_calls w2))).
  fold all key1 body1 key2 body2.
  rewrite (s3_put_object_run s3_bucket key1 body1).
  change (trace (tick (tick w2))) with (trace w2). fold err1.
  destruct err1 as [e1|] eqn:He1; cbn [fst snd is_raise negb andb].
  - rewrite (s3_put_object_run s3_bucket key2 body2).
    cbn [trace tick record]. fold err2.
    destruct Hone as [[? _]|[_ H2]]; [done|]. rewrite H2.
    cbn [fst snd is_raise negb andb trace tick record set_objects objects].
    eexists. split; [done|]. split; [done|].
    cbn [trace tick record set_objects objects].
    split; [by rewrite <- app_assoc|].
    split; [done|]. split; [done|]. split; [done|].
    split; [intros _; apply lookup_insert_eq|done].
  - rewrite (s3_put_object_run s3_bucket key2 body2).
    cbn [trace tick record set_objects]. fold err2.
    destruct Hone as [[_ H2]|[? _]]; [|done].
    destruct err2 as [e2|] eqn:He2; [|done].
    cbn [fst snd is_raise negb andb trace tick record set_objects objects].
    eexists. split; [done|]. split; [done|].
    cbn [trace tick record set_objects objects].
    split; [by rewrite <- app_assoc|].
    split; [done|]. split; [done|].
    split; [intros _; apply lookup_insert_eq|done].
Qed.


Lemma subscript_app_l k (d1 d2 : list (string * value)) x :
  (VDict d1).[k] = Return x -> (VDict (d1 ++ d2)).[k] = Return x.
Proof.
  unfold subscript, pure_value. cbn [mbind result_bind getitem].
  destruct (assoc k d1) as [y|] eqn:Hy; [|done].
  intros [= ->]. by rewrite (assoc_app_l k d1 d2 x Hy).
Qed.

(** The text of the pretty-printed array of a non-empty batch: the records
    in list order, each indented by one level. *)
Lemma json_content_nonempty track tracks :
  json_content (track :: tracks) =
    "[" +:+ (nl +:+ "  ")
    +:+ String.concat ("," +:+ (nl +:+ "  "))
          (List.map (dumps_at false (Some 2%nat) 1) (track :: tracks))
    +:+ nl +:+ "]".
Proof. reflexivity. Qed.

Lemma track_data_plain item t w w' :
  plain_floats item = true ->
  track_data C item w = (Return t, w') ->
  plain_floats t = true.
Proof.
  intros Hitem. destruct (track_fields item) as [fields|e] eqn:Hf.
  - rewrite (track_data_return item fields w Hf). intros [= <- _].
    pose proof (track_fields_plain item fields Hitem Hf) as Hp.
    cbn [plain_floats] in *. rewrite forallb_app, Hp. reflexivity.
  - by rewrite (track_data_raise item e w Hf).
Qed.

(** C10. For a non-empty response whose items can all be normalized, the
    k-th record returned is the record of the k-th item; the JSONL body is
    the compact texts of the records in that order, joined by newlines (so
    that its k-th line is the text of the k-th record), and the JSON body is
    the array of their indented texts in the same order; these two texts are
    what the two save functions send to S3. *)
Theorem order_is_preserved sp_client w results item items :
  (current_user_recently_played sp_client target_count (files w)).1 = Return results ->
  response_items results = Some (item :: items) ->
  Forall (fun it => is_raise (track_fields it) = false) (item :: items) ->
  exists tracks,
    get_recent_tracks C sp_client w =
      (Return tracks, later (length (item :: items)) (fetched sp_client w))
    /\ length tracks = length (item :: items)
    /\ (forall k it, (item :: items) !! k = Some it ->
          exists t, tracks !! k = Some t
            /\ track_data C it (later k (fetched sp_client w))
               = (Return t, later (S k) (fetched sp_client w))
            /\ t.["played_at"] = it.["played_at"]
            /\ t.["track_id"] = it.["track"].["id"])
    /\ jsonl_content tracks = String.concat nl (List.map (dumps false None) tracks)
    /\ (Forall (fun it => plain_floats it = true) (item :: items) ->
        split "010" (jsonl_content tracks) = List.map (dumps false None) tracks)
    /\ json_content tracks =
         "[" +:+ (nl +:+ "  ")
         +:+ String.concat ("," +:+ (nl +:+ "  "))
               (List.map (dumps_at false (Some 2%nat) 1) tracks)
         +:+ nl +:+ "]"
    /\ (forall bucket file_prefix w0,
          exists key,
            trace (save_json_for_glue C tracks bucket file_prefix w0).2
            = trace w0 ++ [PutObject bucket key (encode_utf8 (jsonl_content tracks))])
    /\ (forall bucket file_prefix w0,
          exists key,
            trace (save_regular_json C tracks bucket file_prefix w0).2
            = trace w0 ++ [PutObject bucket key (encode_utf8 (json_content tracks))]).
Proof.
  intros Hapi Hitems Hok.
  destruct (for_item_in_ok (item :: items) [] (fetched sp_client w) Hok)
    as (recs & Hrun & Hlen & Hidx).
  exists recs. split; [|split; [|split; [|split; [|split; [|split; [|split]]]]]].
  - rewrite (get_recent_tracks_items sp_client w results item items Hapi Hitems).
    by rewrite Hrun.
  - done.
  - intros k it Hk. destruct (Hidx k it Hk) as (t & Ht & Htd).
    exists t. split; [done|]. split; [done|].
    destruct (track_fields it) as [fields|e] eqn:Hf.
    2:{ by rewrite (track_data_raise it e _ Hf) in Htd. }
    rewrite (track_data_return it fields _ Hf) in Htd. injection Htd as <-.
    destruct (track_fields_sources it fields Hf) as (_ & Hid & _ & Hat & _).
    split.
    + destruct (it.["played_at"]) as [x|e] eqn:Hx.
      * by apply subscript_app_l.
      * exfalso. clear -Hf Hx. unfold track_fields in Hf. revert Hf.
        read_fields. congruence.
    + destruct (it.["track"].["id"]) as [x|e] eqn:Hx.
      * by apply subscript_app_l.
      * exfalso. clear -Hf Hx. unfold track_fields in Hf. revert Hf.
        read_fields. congruence.
  - reflexivity.
  - intros Hplain. unfold jsonl_content. apply split_concat_lines.
    + destruct recs; [discriminate|done].
    + apply Forall_forall. intros line Hline.
      apply list_elem_of_In, in_map_iff in Hline as (t & <- & Ht).
      apply single_line_dumps.
      apply list_elem_of_In, list_elem_of_lookup in Ht as [k Hk].
      destruct (lookup_lt_is_Some_2 (item :: items) k) as [it Hit].
      { rewrite <- Hlen. by apply lookup_lt_Some in Hk. }
      destruct (Hidx k it Hit) as (t' & Ht' & Htd). rewrite Hk in Ht'.
      injection Ht' as <-.
      eapply (track_data_plain it t); [|exact Htd].
      rewrite Forall_forall in Hplain. apply Hplain, list_elem_of_lookup.
      by exists k.
  - destruct recs as [|t recs]; [done|]. apply json_content_nonempty.
  - intros bucket file_prefix w0. rewrite save_json_for_glue_run. cbv zeta.
    cbn [snd]. rewrite s3_put_trace, !trace_tick. by eexists.
  - intros bucket file_prefix w0. rewrite save_regular_json_run. cbv zeta.
    cbn [snd]. rewrite s3_put_trace, !trace_tick. by eexists.
Qed.

End Run.

(** *** The statements on sample runs *)

(** C1, counterexample to the claim as stated: for the valid one-item
    response [Sample.afternoon] the record has [played_at]
    2024-01-15T14:30:00.000Z and [played_hour] 14, which is not a prefix of
    it. *)
Lemma played_hour_is_not_a_prefix :
  valid_response target_count Sample.afternoon = true
  /\ exists t w',
       get_recent_tracks (Sample.collaborators (Return Sample.afternoon) [])
         (Sample.client (Return Sample.afternoon)) Sample.cold = (Return [t], w')
       /\ t.["played_at"] = Return (VStr "2024-01-15T14:30:00.000Z")
       /\ t.["played_hour"] = Return (VStr "14")
       /\ String.prefix "14" "2024-01-15T14:30:00.000Z" = false.
Proof.
  split; [vm_compute; reflexivity|].
  eexists _, _. split; [vm_compute; reflexivity|].
  repeat split.
Qed.

Lemma get_recent_tracks_valid_response_witness :
  exists tracks,
    (get_recent_tracks (Sample.collaborators (Return (Sample.response Sample.two_items)) [])
       (Sample.client (Return (Sample.response Sample.two_items))) Sample.cold).1
    = Return tracks
    /\ length tracks = 2%nat.
Proof.
  destruct (get_recent_tracks_valid_response
              (Sample.collaborators (Return (Sample.response Sample.two_items)) [])
              (Sample.client (Return (Sample.response Sample.two_items)))
              Sample.cold (Sample.response Sample.two_items) Sample.two_items)
    as (tracks & Hrun & Hlen & _).
  - reflexivity.
  - reflexivity.
  - vm_compute. reflexivity.
  - exists tracks. rewrite Hrun. split; [reflexivity|exact Hlen].
Defined.

(** C5, counterexample to the claim as stated: the second item of
    [Sample.mixed] has no [track]; reading its fields raises [KeyError], yet
    [get_recent_tracks] returns (the empty list) and the handler answers
    normally. *)
Lemma malformed_item_is_handled :
  track_fields Sample.bad_item = Raise (KeyError "track")
  /\ (get_recent_tracks (Sample.collaborators (Return Sample.mixed) [])
        (Sample.client (Return Sample.mixed)) Sample.cold).1 = Return []
  /\ (lambda_handler (Sample.collaborators (Return Sample.mixed) [])
        VNone VNone Sample.cold).1 = Return no_new_response.
Proof. repeat split; vm_compute; reflexivity. Qed.

Lemma malformed_item_aborts_batch_witness :
  (exists k,
     get_recent_tracks (Sample.collaborators (Return Sample.mixed) [])
       (Sample.client (Return Sample.mixed)) Sample.cold
     = (Return [], later k (fetched (Sample.client (Return Sample.mixed)) Sample.cold)))
  /\ (exists tracks,
        (get_recent_tracks (Sample.collaborators (Return Sample.garbled) [])
           (Sample.client (Return Sample.garbled)) Sample.cold).1 = Return tracks
        /\ length tracks = 1%nat).
Proof.
  split.
  - destruct (malformed_item_aborts_batch
                (Sample.collaborators (Return Sample.mixed) [])
                (Sample.client (Return Sample.mixed)) Sample.cold Sample.mixed
                (Sample.item "t1" "2024-01-15T14:30:00.000Z") [Sample.bad_item])
      as [Hbad _].
    + reflexivity.
    + reflexivity.
    + destruct Hbad as (e & k & _ & _ & Hrun).
      * apply Exists_cons_tl, Exists_cons_hd. vm_compute. reflexivity.
      * exists k. exact Hrun.
  - destruct (malformed_item_aborts_batch
                (Sample.collaborators (Return Sample.garbled) [])
                (Sample.client (Return Sample.garbled)) Sample.cold Sample.garbled
                (Sample.item "t1" "garbage") [])
      as [_ Hgood].
    + reflexivity.
    + reflexivity.
    + destruct Hgood as (tracks & Hrun & Hlen).
      * apply Forall_cons. split; [vm_compute; reflexivity|apply Forall_nil_2].
      * exists tracks. split; [by rewrite Hrun|exact Hlen].
Defined.

Lemma cache_handoff_first_write_wins_witness :
  (exists w',
     cache_handoff Sample.cold = (Return (), w')
     /\ files w' !! tmp_cache_path = Some (File "seed-token"))
  /\ cache_handoff Sample.warm = (Return (), Sample.warm).
Proof.
  destruct (cache_handoff_first_write_wins
              (Sample.collaborators (Return Sample.afternoon) [])
              VNone VNone Sample.cold) as [Hcopy _].
  destruct (cache_handoff_first_write_wins
              (Sample.collaborators (Return Sample.afternoon) [])
              VNone VNone Sample.warm) as [_ Hkeep].
  split.
  - destruct (Hcopy "seed-token") as (w' & Hrun & Htmp & _);
      [vm_compute; reflexivity|vm_compute; reflexivity|].
    exists w'. split; [exact Hrun|exact Htmp].
  - destruct (Hkeep (File "refreshed-token")) as [Hrun _];
      [vm_compute; reflexivity|exact Hrun].
Defined.

Lemma missing_configuration_aborts_witness :
  exists w',
    lambda_handler (Sample.collaborators (Return Sample.afternoon) [])
      VNone VNone Sample.unconfigured = (Raise (KeyError "S3_BUCKET"), w')
    /\ List.filter is_network_call (trace w') = [].
Proof.
  destruct (missing_configuration_aborts
              (Sample.collaborators (Return Sample.afternoon) [])
              VNone VNone Sample.unconfigured) as (e & w' & Hrun & _ & Hcalls & _).
  - right. vm_compute. reflexivity.
  - exists w'. split; [|exact Hcalls].
    rewrite Hrun. revert Hrun. vm_compute. intros [= -> _]. reflexivity.
Defined.

Lemma empty_fetch_is_no_new_data_witness :
  exists w',
    lambda_handler (Sample.collaborators (Raise (External "SpotifyException")) [])
      VNone VNone Sample.cold = (Return no_new_response, w')
    /\ objects w' = objects Sample.cold
    /\ List.filter is_put_object (trace w') = [].
Proof.
  destruct (empty_fetch_is_no_new_data
              (Sample.collaborators (Raise (External "SpotifyException")) [])
              VNone VNone Sample.cold
              (Sample.client (Raise (External "SpotifyException"))) "bucket"
              (setup (Sample.collaborators (Raise (External "SpotifyException")) [])
                     Sample.cold).2)
    as [Hcause Hrun].
  - vm_compute. reflexivity.
  - apply Hrun, Hcause. left. exists (External "SpotifyException"). reflexivity.
Defined.

Lemma status_code_is_always_200_witness :
  exists v w',
    lambda_handler (Sample.collaborators (Return Sample.afternoon) [0; 1]%nat)
      VNone VNone Sample.cold = (Return v, w')
    /\ v.["statusCode"] = Return (VInt 200).
Proof.
  destruct (status_code_is_always_200
              (Sample.collaborators (Return Sample.afternoon) [0; 1]%nat)
              VNone VNone Sample.cold) as [Hstatus Hreturns].
  destruct (Hreturns (Sample.client (Return Sample.afternoon)) "bucket"
              (setup (Sample.collaborators (Return Sample.afternoon) [0; 1]%nat)
                     Sample.cold).2) as (v & w' & Hrun).
  - vm_compute. reflexivity.
  - exists v, w'. split; [exact Hrun|]. exact (proj1 (Hstatus v w' Hrun)).
Defined.

(** C4, counterexample to the claim as stated: in this run the JSONL write
    succeeds and the JSON write raises, and the handler reports no failure.
    It does not raise, and what it returns is, value for value, what the run
    with an empty history returns: status code 200, nothing processed. *)
Lemma partial_write_is_not_reported_as_failure :
  let partial :=
    lambda_handler (Sample.collaborators (Return Sample.afternoon) [1%nat])
      VNone VNone Sample.cold in
  let nothing_new :=
    lambda_handler (Sample.collaborators (Return (Sample.response [])) [])
      VNone VNone Sample.cold in
  objects partial.2 !!
    ("bucket",
     "raw/historial/year=2024/month=01/day=15/historial_20240115_120000.jsonl")
  <> None
  /\ objects partial.2 !!
       ("bucket", "processed/historial/historial_20240115_120000.json") = None
  /\ List.filter is_put_object (trace nothing_new.2) = []
  /\ is_raise partial.1 = false
  /\ partial.1 = nothing_new.1
  /\ partial.1.["statusCode"] = Return (VInt 200).
Proof.
  cbv zeta. split; [vm_compute; discriminate|].
  repeat split; vm_compute; reflexivity.
Qed.

Lemma partial_write_answers_no_new_data_witness :
  exists w',
    lambda_handler (Sample.collaborators (Return Sample.afternoon) [1%nat])
      VNone VNone Sample.cold = (Return no_new_response, w')
    /\ is_Some (objects w' !!
         ("bucket",
          "raw/historial/year=2024/month=01/day=15/historial_20240115_120000.jsonl")).
Proof.
  pose (C := Sample.collaborators (Return Sample.afternoon) [1%nat]).
  pose (sp := Sample.client (Return Sample.afternoon)).
  pose (w1 := (setup C Sample.cold).2).
  pose (l := match (get_recent_tracks C sp w1).1 with Return l => l | Raise _ => [] end).
  destruct (partial_write_answers_no_new_data C VNone VNone Sample.cold sp "bucket" w1
              (hd VNone l) (tl l) (get_recent_tracks C sp w1).2)
    as (w' & Hrun & _ & _ & _ & _ & Hfirst & _).
  - vm_compute. reflexivity.
  - vm_compute. reflexivity.
  - left. split; [vm_compute; reflexivity|vm_compute; discriminate].
  - exists w'. split; [exact Hrun|].
    eexists. apply Hfirst. vm_compute. reflexivity.
Defined.

Lemma order_is_preserved_witness :
  exists t1 t2,
    (get_recent_tracks (Sample.collaborators (Return (Sample.response Sample.two_items)) [])
       (Sample.client (Return (Sample.response Sample.two_items))) Sample.cold).1
    = Return [t1; t2]
    /\ t1.["track_id"] = Return (VStr "t1")
    /\ t2.["track_id"] = Return (VStr "t2").
Proof.
  destruct (order_is_preserved
              (Sample.collaborators (Return (Sample.response Sample.two_items)) [])
              (Sample.client (Return (Sample.response Sample.two_items)))
              Sample.cold (Sample.response Sample.two_items)
              (Sample.item "t1" "2024-01-15T14:30:00.000Z")
              [Sample.item "t2" "2024-01-15T13:05:10.000Z"])
    as (tracks & Hrun & Hlen & Hidx & _).
  - reflexivity.
  - reflexivity.
  - repeat constructor.
  - destruct tracks as [|t1 [|t2 [|t3 tracks]]]; try discriminate.
    exists t1, t2. split; [by rewrite Hrun|].
    destruct (Hidx 0%nat _ eq_refl) as (t & [= <-] & _ & _ & H1).
    destruct (Hidx 1%nat _ eq_refl) as (t & [= <-] & _ & _ & H2).
    split; [exact H1|exact H2].
Defined.

End LambdaSpec.

(** ** The Deduplicator *)

Module GlueJobSpec.
Import Py GlueJob.

Section FirstPerKey.
Context (subset : list string).
Implicit Types (l : list Row) (r : Row).

Local Abbreviation key := (key_of subset).

Lemma first_per_key_elem l r : r ∈ first_per_key subset l -> r ∈ l.
Proof.
  revert r. induction l as [|a l IH]; intros r; simpl; [done|].
  rewrite !elem_of_cons, list_elem_of_filter.
  intros [->|[_ Hin]]; [by left|right; by apply IH].
Qed.

Lemma first_per_key_covers l r :
  r ∈ l -> exists r', r' ∈ first_per_key subset l /\ key r' = key r.
Proof.
  induction l as [|a l IH]; simpl; [by rewrite elem_of_nil|].
  rewrite elem_of_cons. intros [->|Hin].
  - exists a. split; [left|done].
  - destruct (IH Hin) as (r' & Hr' & Hk).
    destruct (decide (key r' = key a)) as [Heq|Hne].
    + exists a. split; [left|congruence].
    + exists r'. split; [|done]. right. by apply list_elem_of_filter.
Qed.

Lemma first_per_key_NoDup l : NoDup (key <$> first_per_key subset l).
Proof.
  induction l as [|a l IH]; simpl; [constructor|].
  apply NoDup_cons. split.
  - rewrite list_elem_of_fmap. intros (r' & Hk & Hin).
    apply list_elem_of_filter in Hin as [Hne _]. by apply Hne.
  - remember (first_per_key subset l) as m eqn:Hm. clear Hm.
    induction m as [|b m IHm]; simpl; [constructor|].
    rewrite fmap_cons in IH. apply NoDup_cons in IH as [Hb Hm].
    rewrite filter_cons. case_decide; [|by auto].
    rewrite fmap_cons. apply NoDup_cons. split; [|by auto].
    rewrite list_elem_of_fmap. intros (r' & Hk & Hin).
    apply list_elem_of_filter in Hin as [_ Hin].
    apply Hb. rewrite Hk. by apply list_elem_of_fmap_2.
Qed.

Lemma first_per_key_id l : NoDup (key <$> l) -> first_per_key subset l = l.
Proof.
  induction l as [|a l IH]; simpl; [done|].
  rewrite NoDup_cons. intros [Ha Hl]. rewrite (IH Hl). f_equal.
  clear IH Hl. induction l as [|b l IHl]; [done|].
  rewrite fmap_cons, not_elem_of_cons in Ha. destruct Ha as [Hab Ha].
  rewrite filter_cons_True by congruence. f_equal. by apply IHl.
Qed.

(** In a list without two rows of the same key, a key that occurs is the key of
    exactly one row. *)
Lemma NoDup_key_count l r :
  NoDup (key <$> l) -> r ∈ l ->
  length (filter (fun r' => key r' = key r) l) = 1%nat.
Proof.
  induction l as [|a l IH]; simpl; [by rewrite elem_of_nil|].
  rewrite NoDup_cons, elem_of_cons. intros [Ha Hl] Hr.
  rewrite filter_cons. case_decide as Hk.
  - simpl. f_equal. apply length_zero_iff_nil.
    assert (Hnone : forall x, x ∈ l -> key x <> key r).
    { intros x Hx Hxk. apply Ha. rewrite Hk, <- Hxk. by apply list_elem_of_fmap_2. }
    clear -Hnone. induction l as [|b l IHl]; [done|].
    rewrite filter_cons_False; [apply IHl|apply Hnone; left].
    intros x Hx. apply Hnone. by right.
  - destruct Hr as [->|Hr]; [done|]. by apply IH.
Qed.

End FirstPerKey.

Lemma key_of_played_at (r r' : Row) :
  key_of [DEDUP_COLUMN] r = key_of [DEDUP_COLUMN] r' <-> played_at r = played_at r'.
Proof. unfold key_of, played_at. simpl. split; congruence. Qed.

Lemma NoDup_played_at_key (l : list Row) :
  NoDup (played_at <$> l) <-> NoDup (key_of [DEDUP_COLUMN] <$> l).
Proof.
  assert (Heq : key_of [DEDUP_COLUMN] <$> l = (fun k => [k]) <$> (played_at <$> l)).
  { rewrite <- list_fmap_compose. done. }
  rewrite Heq. symmetry. apply (NoDup_fmap (fun k : option cell => [k])).
Qed.

Lemma dropDuplicates_returns (E : Engine) (df : DataFrame) :
  DEDUP_COLUMN ∈ columns df ->
  deduplicated_df E df =
    Return {| columns := columns df;
              rows := distinct_rows E [DEDUP_COLUMN] (rows df) |}.
Proof.
  intros Hc. unfold deduplicated_df, dropDuplicates. simpl.
  by rewrite bool_decide_eq_true_2.
Qed.


Section Deduplicator.
Context (E : Engine).
Implicit Types (df out : DataFrame) (r : Row).

Local Abbreviation dedup := (distinct_rows E [DEDUP_COLUMN]).

Lemma dedup_elem l r : r ∈ dedup l -> r ∈ l.
Proof.
  unfold distinct_rows. rewrite (collect_perm E). intros Hin.
  apply first_per_key_elem in Hin. by rewrite (scan_perm E) in Hin.
Qed.

Lemma dedup_NoDup l : NoDup (played_at <$> dedup l).
Proof.
  apply NoDup_played_at_key. unfold distinct_rows. rewrite (collect_perm E).
  apply first_per_key_NoDup.
Qed.

Lemma dedup_covers l r :
  r ∈ l -> exists r', r' ∈ dedup l /\ played_at r' = played_at r.
Proof.
  intros Hin. rewrite <- (scan_perm E) in Hin.
  destruct (first_per_key_covers [DEDUP_COLUMN] _ _ Hin) as (r' & Hr' & Hk).
  exists r'. split; [|by apply key_of_played_at].
  unfold distinct_rows. by rewrite (collect_perm E).
Qed.

Lemma dedup_count l r :
  r ∈ l -> length (filter (fun r' => played_at r' = played_at r) (dedup l)) = 1%nat.
Proof.
  intros Hin. destruct (dedup_covers l r Hin) as (r' & Hr' & Hk).
  rewrite <- (NoDup_key_count [DEDUP_COLUMN] (dedup l) r').
  - f_equal. apply list_filter_iff. intros x.
    rewrite key_of_played_at. split; congruence.
  - apply NoDup_played_at_key, dedup_NoDup.
  - done.
Qed.

Lemma dedup_length l :
  length (dedup l) = length (remove_dups (played_at <$> l)).
Proof.
  rewrite <- (length_fmap played_at (dedup l)).
  apply Permutation_length, NoDup_Permutation.
  - apply dedup_NoDup.
  - apply NoDup_remove_dups.
  - intros k. rewrite elem_of_remove_dups, !list_elem_of_fmap. split.
    + intros (r & -> & Hr). exists r. split; [done|]. by apply dedup_elem.
    + intros (r & -> & Hr). destruct (dedup_covers l r Hr) as (r' & Hr' & Hk).
      by exists r'.
Qed.

Lemma dedup_duplicate_free l : NoDup (played_at <$> l) -> dedup l ≡ₚ l.
Proof.
  intros Hnd. unfold distinct_rows. rewrite (collect_perm E).
  rewrite first_per_key_id; [apply (scan_perm E)|].
  apply NoDup_played_at_key. by rewrite (scan_perm E).
Qed.

End Deduplicator.

Lemma job_returns (E : Engine) from_catalog (df out : DataFrame) :
  from_catalog DATABASE_NAME TABLE_NAME = Return df ->
  deduplicated_df E df = Return out ->
  job E from_catalog =
    Return {| frame := out; connection_type := "s3"; path := OUTPUT_PATH;
              partitionKeys := []; format := "parquet" |}.
Proof. intros Hload Hd. unfold job. rewrite Hload. simpl. by rewrite Hd. Qed.

(** C2. The frame the job writes has exactly one row for each value of
    [played_at] that occurs in the loaded table, and every row of it is a row
    of the table; a table whose three rows have the values t1, t1, t2 gives two
    rows, one with t1 and one with t2. *)
Theorem job_one_row_per_played_at (E : Engine) from_catalog (df : DataFrame) :
  from_catalog DATABASE_NAME TABLE_NAME = Return df ->
  DEDUP_COLUMN ∈ columns df ->
  exists req,
    job E from_catalog = Return req
    /\ deduplicated_df E df = Return (frame req)
    /\ (forall r, r ∈ rows (frame req) -> r ∈ rows df)
    /\ (forall r, r ∈ rows df ->
          length (filter (fun r' => played_at r' = played_at r) (rows (frame req)))
          = 1%nat)
    /\ length (rows (frame req)) = length (remove_dups (played_at <$> rows df))
    /\ (forall (r1 r1' r2 : Row) (t1 t2 : option cell),
          rows df = [r1; r1'; r2] ->
          played_at r1 = t1 -> played_at r1' = t1 -> played_at r2 = t2 ->
          t1 <> t2 ->
          length (rows (frame req)) = 2%nat
          /\ length (filter (fun r => played_at r = t1) (rows (frame req))) = 1%nat
          /\ length (filter (fun r => played_at r = t2) (rows (frame req))) = 1%nat).
Proof.
  intros Hload Hcol. eexists. split; [|split].
  - eapply job_returns; [done|]. by apply dropDuplicates_returns.
  - simpl. by apply dropDuplicates_returns.
  - simpl. split; [|split; [|split]].
    + apply dedup_elem.
    + apply dedup_count.
    + apply dedup_length.
    + intros r1 r1' r2 t1 t2 Hrows H1 H1' H2 Hne. split; [|split].
      * rewrite dedup_length, Hrows. simpl. rewrite H1, H1', H2.
        destruct (decide_rel elem_of t1 [t1; t2]) as [_|Hn];
          [|exfalso; apply Hn; left].
        destruct (decide_rel elem_of t1 [t2]) as [Hin|_];
          [by apply list_elem_of_singleton in Hin|].
        destruct (decide_rel elem_of t2 []) as [Hin|_];
          [by apply elem_of_nil in Hin|done].
      * rewrite <- H1. apply dedup_count. rewrite Hrows. left.
      * rewrite <- H2. apply dedup_count. rewrite Hrows. right. right. left.
Qed.

Lemma job_one_row_per_played_at_witness :
  exists req,
    job in_order (fun _ _ => Return three_rows) = Return req
    /\ length (rows (frame req)) = 2%nat.
Proof.
  destruct (job_one_row_per_played_at in_order (fun _ _ => Return three_rows)
              three_rows eq_refl) as (req & Hjob & _ & _ & _ & _ & Hex).
  - unfold three_rows; simpl. left.
  - exists req. split; [exact Hjob|].
    apply (Hex _ _ _ (Some (CString "t1")) (Some (CString "t2")) eq_refl);
      try reflexivity. discriminate.
Defined.

(** C7. On a table whose rows have pairwise different [played_at] values the
    job writes the same rows: as many as were loaded, each one unchanged. *)
Theorem job_idempotent_on_duplicate_free (E : Engine) from_catalog (df : DataFrame) :
  from_catalog DATABASE_NAME TABLE_NAME = Return df ->
  DEDUP_COLUMN ∈ columns df ->
  NoDup (played_at <$> rows df) ->
  exists req,
    job E from_catalog = Return req
    /\ deduplicated_df E df = Return (frame req)
    /\ columns (frame req) = columns df
    /\ length (rows (frame req)) = length (rows df)
    /\ rows (frame req) ≡ₚ rows df.
Proof.
  intros Hload Hcol Hnd. eexists. split; [|split].
  - eapply job_returns; [done|]. by apply dropDuplicates_returns.
  - simpl. by apply dropDuplicates_returns.
  - simpl. pose proof (dedup_duplicate_free E _ Hnd) as Hp.
    split; [done|]. split; [by apply Permutation_length|done].
Qed.

Lemma job_idempotent_on_duplicate_free_witness :
  exists req,
    job in_order (fun _ _ => Return two_rows) = Return req
    /\ rows (frame req) ≡ₚ rows two_rows.
Proof.
  destruct (job_idempotent_on_duplicate_free in_order (fun _ _ => Return two_rows)
              two_rows eq_refl) as (req & Hjob & _ & _ & _ & Hp).
  - unfold two_rows; simpl. left.
  - vm_compute. apply NoDup_cons. split; [|apply NoDup_singleton].
    intros Hin. apply list_elem_of_singleton in Hin. discriminate.
  - exists req. split; [exact Hjob|exact Hp].
Defined.

End GlueJobSpec.

(** ** The Collector: further properties *)

Module LambdaMore.
Import Py Lambda PySpec LambdaSpec.

Section More.
Context (C : Collaborators).

Lemma fetched_fields sp_client w :
  environ (fetched sp_client w) = environ w
  /\ objects (fetched sp_client w) = objects w
  /\ now_calls (fetched sp_client w) = now_calls w
  /\ trace (fetched sp_client w) = trace w ++ [CurrentUserRecentlyPlayed target_count]
  /\ files (fetched sp_client w)
     = (current_user_recently_played sp_client target_count (files w)).2.
Proof. done. Qed.

(** X1. [get_recent_tracks] never raises, whatever the client does: it
    returns a list after exactly one call of the endpoint, with limit 50; it
    writes nothing to S3 and leaves the environment variables alone; the files
    are as the client left them. *)
Theorem get_recent_tracks_never_raises sp_client w :
  exists tracks w',
    get_recent_tracks C sp_client w = (Return tracks, w')
    /\ trace w' = trace w ++ [CurrentUserRecentlyPlayed 50]
    /\ objects w' = objects w
    /\ environ w' = environ w
    /\ files w' = (current_user_recently_played sp_client 50 (files w)).2.
Proof.
  destruct (get_recent_tracks_total C sp_client w) as (tracks & k & Hrun).
  exists tracks, (later k (fetched sp_client w)). split; [exact Hrun|].
  destruct (later_fields k (fetched sp_client w)) as (-> & -> & -> & -> & _).
  by destruct (fetched_fields sp_client w) as (-> & -> & _ & -> & ->).
Qed.

(** A loop that returns has normalized every item. *)
Lemma for_item_in_returns items all_tracks w tracks w' :
  for_item_in C items all_tracks w = (Return tracks, w') ->
  Forall (fun it => is_raise (track_fields it) = false) items.
Proof.
  intros Hrun. apply Forall_forall. intros it Hit.
  destruct (is_raise (track_fields it)) eqn:Hr; [|done]. exfalso.
  destruct (for_item_in_raise C items all_tracks w) as (e & k & Hraise & _).
  { apply Exists_exists. by exists it. }
  by rewrite Hraise in Hrun.
Qed.

(** What a non-empty result of the fetch says about the run. *)
Lemma get_recent_tracks_batch sp_client w tracks w' :
  get_recent_tracks C sp_client w = (Return tracks, w') ->
  tracks <> [] ->
  exists results items elements,
    (current_user_recently_played sp_client target_count (files w)).1 = Return results
    /\ dict_get results "items" (VList []) = Return items
    /\ truthy items = true
    /\ iterate items = Return elements
    /\ Forall (fun it => is_raise (track_fields it) = false) elements
    /\ length tracks = length elements
    /\ w' = later (length elements) (fetched sp_client w)
    /\ forall k it, elements !! k = Some it ->
         exists t, tracks !! k = Some t
           /\ track_data C it (later k (fetched sp_client w))
              = (Return t, later (S k) (fetched sp_client w)).
Proof.
  unfold get_recent_tracks, try_except. rewrite bind_run, sp_call_run.
  destruct (current_user_recently_played _ _ _).1 as [results|e] eqn:Hapi;
    [|by intros [= <- _]].
  rewrite bind_run, eval_run.
  destruct (dict_get results "items" (VList [])) as [items|e] eqn:Hitems;
    [|by intros [= <- _]].
  destruct (truthy items) eqn:Htruthy; simpl; [|by intros [= <- _]].
  rewrite bind_run, eval_run.
  destruct (iterate items) as [elements|e] eqn:Helements; [|by intros [= <- _]].
  destruct (for_item_in C elements [] (fetched sp_client w)) as [[l|e] w''] eqn:Hloop;
    [|by intros [= <- _]].
  intros [= -> ->] Hne.
  pose proof (for_item_in_returns _ _ _ _ _ Hloop) as Hall.
  destruct (for_item_in_ok C elements [] (fetched sp_client w) Hall)
    as (recs & Hrun & Hlen & Hidx).
  rewrite Hrun in Hloop. injection Hloop as <- <-.
  by exists results, items, elements.
Qed.

(** X2. The result of the fetch is all or nothing.  A non-empty result means
    that the endpoint answered, that its answer had a non-empty iterable under
    [items], that every element of it was normalized, and the result has one
    record for each of them: never a part of the batch. *)
Theorem get_recent_tracks_all_or_nothing sp_client w tracks w' :
  get_recent_tracks C sp_client w = (Return tracks, w') ->
  tracks <> [] ->
  exists results items elements,
    (current_user_recently_played sp_client target_count (files w)).1 = Return results
    /\ dict_get results "items" (VList []) = Return items
    /\ truthy items = true
    /\ iterate items = Return elements
    /\ Forall (fun it => is_raise (track_fields it) = false) elements
    /\ length tracks = length elements
    /\ w' = later (length elements) (fetched sp_client w).
Proof.
  intros Hrun Hne.
  destruct (get_recent_tracks_batch sp_client w tracks w' Hrun Hne)
    as (results & items & elements & H1 & H2 & H3 & H4 & H5 & H6 & H7 & _).
  by exists results, items, elements.
Qed.

Lemma assoc_None k (d : list (string * value)) :
  k ∉ d.*1 -> assoc k d = None.
Proof.
  induction d as [|[k' x] d IH]; cbn [assoc]; [done|].
  rewrite fmap_cons, not_elem_of_cons. cbn [fst]. intros [Hk Hd].
  apply String.eqb_neq in Hk. rewrite Hk. by apply IH.
Qed.

Lemma assoc_app_r k (d1 d2 : list (string * value)) :
  assoc k d1 = None -> assoc k (d1 ++ d2) = assoc k d2.
Proof.
  induction d1 as [|[k' x] d1 IH]; cbn [assoc app]; [done|].
  destruct (String.eqb k k'); [done|]. exact IH.
Qed.

(** X3. The records of a batch are stamped one after the other: the k-th
    record carries, as [collection_timestamp], the ISO text of the k-th reading
    of the clock after the fetch began. *)
Theorem records_are_stamped_in_order sp_client w tracks w' k (t : value) :
  get_recent_tracks C sp_client w = (Return tracks, w') ->
  tracks !! k = Some t ->
  t.["collection_timestamp"]
  = Return (VStr (isoformat (clock C (now_calls w + k)%nat))).
Proof.
  intros Hrun Hk.
  assert (Hne : tracks <> []) by (intros ->; done).
  destruct (get_recent_tracks_batch sp_client w tracks w' Hrun Hne)
    as (results & items & elements & _ & _ & _ & _ & Hall & Hlen & _ & Hidx).
  destruct (lookup_lt_is_Some_2 elements k) as [it Hit].
  { rewrite <- Hlen. by apply lookup_lt_Some in Hk. }
  destruct (Hidx k it Hit) as (t' & Ht' & Htd). rewrite Hk in Ht'.
  injection Ht' as <-.
  rewrite Forall_forall in Hall.
  assert (Hok : is_raise (track_fields it) = false).
  { apply Hall, list_elem_of_lookup. by exists k. }
  destruct (track_fields it) as [fields|e] eqn:Hf; [|done].
  rewrite (track_data_return C it fields _ Hf) in Htd. injection Htd as <-.
  destruct (track_fields_sources it fields Hf) as (Hkeys & _).
  unfold subscript, pure_value. cbn [mbind result_bind getitem].
  rewrite assoc_app_r.
  - cbn [assoc]. rewrite String.eqb_refl.
    destruct (later_fields k (fetched sp_client w)) as (_ & _ & _ & _ & ->).
    do 4 f_equal. cbn [now_calls fetched set_files record]. lia.
  - apply assoc_None. rewrite Hkeys. vm_compute.
    intros Hin. repeat (apply elem_of_cons in Hin as [Hin|Hin]; [discriminate|]).
    by apply elem_of_nil in Hin.
Qed.

(** X4. [_upload_string_to_s3] never raises.  It answers [True] only after
    a [put_object] that did not raise, and then the object is in the bucket
    with the UTF-8 bytes of the text; whenever [put_object] raises it answers
    [False], and whenever it answers [False] the bucket is as before.  It
    makes at most one call, that [put_object], and touches neither the files
    nor the environment. *)
Theorem upload_never_raises content bucket key w :
  exists ok w',
    _upload_string_to_s3 C content bucket key w = (Return ok, w')
    /\ (ok = true ->
        put_object_error C (trace w) bucket key (encode_utf8 content) = None
        /\ trace w' = trace w ++ [PutObject bucket key (encode_utf8 content)]
        /\ objects w' = <[(bucket, key) := encode_utf8 content]> (objects w))
    /\ (put_object_error C (trace w) bucket key (encode_utf8 content) <> None ->
        ok = false)
    /\ (ok = false -> objects w' = objects w)
    /\ (exists evs,
          trace w' = trace w ++ evs /\ (length evs <= 1)%nat
          /\ Forall (fun ev => ev = PutObject bucket key (encode_utf8 content)) evs)
    /\ environ w' = environ w
    /\ files w' = files w.
Proof.
  rewrite upload_run, s3_put_object_run.
  destruct (put_object_error C (trace w) bucket key (encode_utf8 content)) as [e|];
    eexists _, _; (split; [reflexivity|]); cbn [fst snd is_raise negb];
    (split; [try done; by intros _|]); (split; [done|]); (split; [done|]);
    (split; [eexists [_]; split; [reflexivity|]; split; [done|];
             by apply Forall_singleton|done]).
Qed.


(** The two writes of [store] on a non-empty batch, case by case. *)
Lemma store_cases item tracks s3_bucket w :
  let all := item :: tracks in
  let key1 := glue_file_name "raw/historial" (clock C (now_calls w))
                             (clock C (S (now_calls w))) in
  let body1 := encode_utf8 (jsonl_content all) in
  let key2 := regular_file_name "processed/historial"
                                (clock C (S (S (now_calls w)))) in
  let body2 := encode_utf8 (json_content all) in
  let err1 := put_object_error C (trace w) s3_bucket key1 body1 in
  let err2 := put_object_error C (trace w ++ [PutObject s3_bucket key1 body1])
                               s3_bucket key2 body2 in
  exists w',
    store C all s3_bucket w =
      (Return (match err1, err2 with
               | None, None => ok_response
               | _, _ => no_new_response
               end), w')
    /\ trace w' = trace w ++ [PutObject s3_bucket key1 body1;
                              PutObject s3_bucket key2 body2]
    /\ environ w' = environ w
    /\ files w' = files w
    /\ objects w' =
         match err1, err2 with
         | None, None =>
             <[(s3_bucket, key2) := body2]> (<[(s3_bucket, key1) := body1]> (objects w))
         | None, Some _ => <[(s3_bucket, key1) := body1]> (objects w)
         | Some _, None => <[(s3_bucket, key2) := body2]> (objects w)
         | Some _, Some _ => objects w
         end.
Proof.
  intros all key1 body1 key2 body2 err1 err2.
  change (store C all s3_bucket w) with (store C (item :: tracks) s3_bucket w).
  rewrite store_run. cbv zeta. rewrite s3_put_now_calls.
  change (now_calls (tick (tick w))) with (S (S (now_calls w))).
  fold all key1 body1 key2 body2.
  rewrite (s3_put_object_run C s3_bucket key1 body1).
  change (trace (tick (tick w))) with (trace w). fold err1.
  destruct err1 as [e1|]; cbn [fst snd is_raise negb andb];
    rewrite (s3_put_object_run C s3_bucket key2 body2);
    cbn [trace tick record set_objects]; fold err2;
    destruct err2 as [e2|];
    cbn [fst snd is_raise negb andb trace tick record set_objects objects
         environ files];
    eexists; (split; [reflexivity|]);
    cbn [trace environ files objects tick record set_objects];
    rewrite <- app_assoc; done.
Qed.

(** The handler once the fetch has returned. *)
Lemma lambda_handler_after_fetch event context w sp s3_bucket w1 tracks w2 :
  setup C w = (Return (sp, s3_bucket), w1) ->
  get_recent_tracks C sp w1 = (Return tracks, w2) ->
  lambda_handler C event context w = store C tracks s3_bucket w2.
Proof.
  intros Hsetup Hfetch.
  by rewrite lambda_handler_run, Hsetup, (bind_return _ _ _ _ _ Hfetch).
Qed.

Lemma responses_differ : ok_response <> no_new_response.
Proof. discriminate. Qed.

Lemma keys_differ t1 t2 t3 :
  glue_file_name "raw/historial" t1 t2 <> regular_file_name "processed/historial" t3.
Proof.
  intros H.
  apply (f_equal (fun s => match s with String c _ => Some c | EmptyString => None end))
    in H.
  vm_compute in H. discriminate.
Qed.

(** X5. A failed first write does not stop the second.  On a non-empty
    batch, when the [put_object] of the JSONL text raises, the handler still
    makes the [put_object] of the JSON text, after it and to the same bucket;
    these are the two [put_object] calls of the run and no other, their keys
    are different, and the handler answers that nothing was processed. *)
Theorem both_writes_are_attempted event context w sp s3_bucket w1 item tracks w2 :
  setup C w = (Return (sp, s3_bucket), w1) ->
  get_recent_tracks C sp w1 = (Return (item :: tracks), w2) ->
  let all := item :: tracks in
  let key1 := glue_file_name "raw/historial" (clock C (now_calls w2))
                             (clock C (S (now_calls w2))) in
  let body1 := encode_utf8 (jsonl_content all) in
  let key2 := regular_file_name "processed/historial"
                                (clock C (S (S (now_calls w2)))) in
  let body2 := encode_utf8 (json_content all) in
  put_object_error C (trace w2) s3_bucket key1 body1 <> None ->
  (lambda_handler C event context w).1 = Return no_new_response
  /\ trace (lambda_handler C event context w).2
     = trace w2 ++ [PutObject s3_bucket key1 body1; PutObject s3_bucket key2 body2]
  /\ key1 <> key2.
Proof.
  intros Hsetup Hfetch all key1 body1 key2 body2 Herr.
  rewrite (lambda_handler_after_fetch _ _ _ _ _ _ _ _ Hsetup Hfetch).
  destruct (store_cases item tracks s3_bucket w2) as (w' & -> & Htrace & _).
  fold all key1 body1 key2 body2 in Htrace |- *. cbn [fst snd].
  destruct (put_object_error C (trace w2) s3_bucket key1 body1); [|done].
  split; [done|]. split; [exact Htrace|]. apply keys_differ.
Qed.

(** X6. The success response is given only after both writes.  When the
    handler answers with it, the fetch returned a non-empty batch, neither
    [put_object] raised, the run ended with these two calls, and both objects
    are in the bucket, under their two different keys, with the bytes of the
    two texts. *)
Theorem success_only_after_both_writes event context w w' :
  lambda_handler C event context w = (Return ok_response, w') ->
  exists sp s3_bucket w1 item tracks w2,
    setup C w = (Return (sp, s3_bucket), w1)
    /\ get_recent_tracks C sp w1 = (Return (item :: tracks), w2)
    /\ let all := item :: tracks in
       let key1 := glue_file_name "raw/historial" (clock C (now_calls w2))
                                  (clock C (S (now_calls w2))) in
       let body1 := encode_utf8 (jsonl_content all) in
       let key2 := regular_file_name "processed/historial"
                                     (clock C (S (S (now_calls w2)))) in
       let body2 := encode_utf8 (json_content all) in
       put_object_error C (trace w2) s3_bucket key1 body1 = None
       /\ put_object_error C (trace w2 ++ [PutObject s3_bucket key1 body1])
                           s3_bucket key2 body2 = None
       /\ trace w' = trace w2 ++ [PutObject s3_bucket key1 body1;
                                  PutObject s3_bucket key2 body2]
       /\ key1 <> key2
       /\ objects w' !! (s3_bucket, key1) = Some body1
       /\ objects w' !! (s3_bucket, key2) = Some body2.
Proof.
  rewrite lambda_handler_run.
  destruct (setup C w) as [[[sp s3_bucket]|e] w1] eqn:Hsetup; [|done].
  destruct (get_recent_tracks_total C sp w1) as (tracks & k & Hfetch).
  rewrite (bind_return _ _ _ _ _ Hfetch).
  destruct tracks as [|item tracks].
  { rewrite store_nothing. intros H. exfalso. apply responses_differ. congruence. }
  destruct (store_cases item tracks s3_bucket (later k (fetched sp w1)))
    as (w'' & -> & Htrace & _ & _ & Hobj).
  intros [= Hresp <-].
  exists sp, s3_bucket, w1, item, tracks, (later k (fetched sp w1)).
  split; [done|]. split; [done|]. cbv zeta in *.
  destruct (put_object_error C (trace (later k (fetched sp w1))) _ _ _);
    [exfalso; by apply responses_differ|].
  destruct (put_object_error C (trace (later k (fetched sp w1)) ++ _) _ _ _);
    [exfalso; by apply responses_differ|].
  split; [done|]. split; [done|]. split; [exact Htrace|].
  split; [apply keys_differ|]. rewrite Hobj. split.
  - rewrite lookup_insert_ne; [apply lookup_insert_eq|].
    intros H. assert (Hk : glue_file_name "raw/historial"
                             (clock C (now_calls (later k (fetched sp w1))))
                             (clock C (S (now_calls (later k (fetched sp w1)))))
                           = regular_file_name "processed/historial"
                               (clock C (S (S (now_calls (later k (fetched sp w1)))))))
      by congruence.
    by apply keys_differ in Hk.
  - apply lookup_insert_eq.
Qed.

(** X7. When both writes raise, the handler still returns (the response that
    says nothing was processed) and the bucket is exactly as it was before
    the run. *)
Theorem both_writes_fail event context w sp s3_bucket w1 item tracks w2 :
  setup C w = (Return (sp, s3_bucket), w1) ->
  get_recent_tracks C sp w1 = (Return (item :: tracks), w2) ->
  let all := item :: tracks in
  let key1 := glue_file_name "raw/historial" (clock C (now_calls w2))
                             (clock C (S (now_calls w2))) in
  let body1 := encode_utf8 (jsonl_content all) in
  let key2 := regular_file_name "processed/historial"
                                (clock C (S (S (now_calls w2)))) in
  let body2 := encode_utf8 (json_content all) in
  put_object_error C (trace w2) s3_bucket key1 body1 <> None ->
  put_object_error C (trace w2 ++ [PutObject s3_bucket key1 body1])
                   s3_bucket key2 body2 <> None ->
  exists w',
    lambda_handler C event context w = (Return no_new_response, w')
    /\ objects w' = objects w.
Proof.
  intros Hsetup Hfetch all key1 body1 key2 body2 H1 H2.
  rewrite (lambda_handler_after_fetch _ _ _ _ _ _ _ _ Hsetup Hfetch).
  destruct (store_cases item tracks s3_bucket w2) as (w' & -> & _ & _ & _ & Hobj).
  fold all key1 body1 key2 body2 in Hobj |- *.
  destruct (put_object_error C (trace w2) s3_bucket key1 body1); [|done].
  destruct (put_object_error C _ s3_bucket key2 body2); [|done].
  exists w'. split; [done|]. rewrite Hobj.
  destruct (get_recent_tracks_total C sp w1) as (tr & k & Hrun).
  rewrite Hrun in Hfetch. injection Hfetch as _ <-.
  destruct (later_fields k (fetched sp w1)) as (_ & _ & -> & _).
  destruct (setup_extends C w) as (evs & _ & Hsobj & _).
  rewrite Hsetup in Hsobj. exact Hsobj.
Qed.


(** *** The steps before the fetch *)

Lemma cache_handoff_shape w :
  exists copies,
    trace (cache_handoff w).2 = trace w ++ copies
    /\ (copies = [] \/ copies = [ShutilCopy packaged_cache_path tmp_cache_path])
    /\ environ (cache_handoff w).2 = environ w
    /\ objects (cache_handoff w).2 = objects w.
Proof.
  unfold cache_handoff, path_exists, shutil_copy. rewrite !bind_run.
  destruct (files w !! tmp_cache_path) as [n|] eqn:Htmp; simpl.
  { exists []. rewrite app_nil_r. by repeat split; [left|..]. }
  destruct (files w !! packaged_cache_path) as [[seed|]|] eqn:Hseed; simpl.
  - eexists [_]. rewrite Hseed. simpl. by repeat split; [right|..].
  - eexists [_]. rewrite Hseed. simpl. by repeat split; [right|..].
  - exists []. rewrite app_nil_r. by repeat split; [left|..].
Qed.

Lemma setup_shape w :
  exists copies ssm,
    trace (setup C w).2 = trace w ++ copies ++ ssm
    /\ (copies = [] \/ copies = [ShutilCopy packaged_cache_path tmp_cache_path])
    /\ (ssm = [] \/ exists p, ssm = [GetParametersByPath p true])
    /\ (is_raise (setup C w).1 = false -> ssm <> [])
    /\ environ (setup C w).2 = environ w
    /\ objects (setup C w).2 = objects w.
Proof.
  destruct (cache_handoff_shape w) as (copies & Htrace & Hcopies & Henv & Hobj).
  exists copies. unfold setup. rewrite bind_run.
  destruct (cache_handoff w) as [[[]|e] w0]; cbn [snd] in *.
  2:{ exists []. rewrite app_nil_r. repeat split; try done. by left. }
  rewrite bind_run, get_configuration_run.
  destruct (environ w0 !! "PARAMETER_PATH") as [parameter_path|].
  2:{ exists []. rewrite app_nil_r. repeat split; try done. by left. }
  destruct (environ w0 !! "S3_BUCKET") as [s3_bucket|].
  2:{ exists []. rewrite app_nil_r. repeat split; try done. by left. }
  rewrite bind_run.
  pose proof (get_secrets_world C parameter_path w0) as Hsec.
  exists [GetParametersByPath parameter_path true].
  destruct (get_secrets C parameter_path w0) as [[secrets|e] w1];
    cbn [snd] in Hsec; subst w1.
  2:{ cbn [snd trace record environ objects]. rewrite Htrace, app_assoc.
      repeat split; try done. right. by eexists. }
  rewrite bind_run.
  pose proof (authenticate_world C secrets
                (record (GetParametersByPath parameter_path true) w0)) as Hauth.
  destruct (authenticate C secrets _) as [[sp|e] w2]; cbn [snd] in Hauth; subst w2;
    cbn [mret M_ret fst snd trace record environ objects];
    rewrite Htrace, app_assoc; repeat split; try done; right; by eexists.
Qed.

(** X8. The handler raises exactly when one of the steps before the fetch
    raises (the copy of the cache, the environment variables, the secrets, the
    construction of the client), and with the same error; in such a run the
    Spotify endpoint is never called and nothing is written to S3. *)
Theorem handler_raises_only_before_fetch event context w e :
  ((lambda_handler C event context w).1 = Raise e <-> (setup C w).1 = Raise e)
  /\ ((lambda_handler C event context w).1 = Raise e ->
      objects (lambda_handler C event context w).2 = objects w
      /\ exists evs,
           trace (lambda_handler C event context w).2 = trace w ++ evs
           /\ Forall (fun ev => is_copy ev = true
                        \/ exists p, ev = GetParametersByPath p true) evs).
Proof.
  rewrite lambda_handler_run.
  destruct (setup_extends C w) as (evs & [_ Htrace] & Hobj & Hevs).
  destruct (setup C w) as [[[sp s3_bucket]|e'] w1]; cbn [fst snd] in *.
  - destruct (after_setup_returns C sp s3_bucket w1) as (v & w' & -> & _).
    cbn [fst]. split; [split; discriminate|discriminate].
  - split; [split; intros [= ->]; reflexivity|].
    intros _. split; [done|]. by exists evs.
Qed.


(** [get_secrets]: one call of Parameter Store, then a computation on its
    answer. *)
Lemma get_secrets_run parameter_path w :
  get_secrets C parameter_path w =
    (response ← get_parameters_by_path C parameter_path;
     params ← (v ← (response : value).["Parameters"]; iterate v);
     secrets ← secrets_of params ∅;
     if forallb (fun k => bool_decide (is_Some (secrets !! k))) required_secrets
     then Return secrets
     else Raise (ValueError
       "Faltan secretos (client-id, client-secret, o redirect-uri) en Parameter Store."),
     record (GetParametersByPath parameter_path true) w).
Proof.
  unfold get_secrets, try_except, ssm_get_parameters_by_path, eval, raise.
  unfold mbind, M_bind, result_bind, mret, M_ret.
  destruct (get_parameters_by_path C parameter_path) as [response|e]; [|done].
  destruct (subscript response "Parameters") as [v|e]; [|done].
  destruct (iterate v) as [params|e]; [|done].
  destruct (secrets_of params ∅) as [secrets|e]; [|done].
  by destruct (forallb _ _).
Qed.

(** The handler when the cache handoff and the configuration succeed. *)
Lemma lambda_handler_configured event context w w0 parameter_path s3_bucket :
  cache_handoff w = (Return (), w0) ->
  environ w !! "PARAMETER_PATH" = Some parameter_path ->
  environ w !! "S3_BUCKET" = Some s3_bucket ->
  lambda_handler C event context w =
    (secrets ← get_secrets C parameter_path;
     sp ← authenticate C secrets;
     tracks ← get_recent_tracks C sp;
     store C tracks s3_bucket) w0.
Proof.
  intros Hhandoff Hpp Hbucket.
  destruct (cache_handoff_shape w) as (_ & _ & _ & Henv & _).
  rewrite Hhandoff in Henv. cbn [snd] in Henv.
  unfold lambda_handler. rewrite (bind_return _ _ _ _ _ Hhandoff).
  by rewrite bind_run, get_configuration_run, Henv, Hpp, Hbucket.
Qed.

(** X9. The secrets are validated before they are used.  When the answer of
    Parameter Store lacks one of [client-id], [client-secret], [redirect-uri],
    the handler raises the [ValueError] of line 56 after its one call of
    Parameter Store: the Spotify client is not built, the endpoint is not
    called and nothing is written. *)
Theorem missing_secret_aborts event context w w0 parameter_path s3_bucket
    response params secrets k :
  cache_handoff w = (Return (), w0) ->
  environ w !! "PARAMETER_PATH" = Some parameter_path ->
  environ w !! "S3_BUCKET" = Some s3_bucket ->
  get_parameters_by_path C parameter_path = Return response ->
  (v ← (response : value).["Parameters"]; iterate v) = Return params ->
  secrets_of params ∅ = Return secrets ->
  k ∈ required_secrets ->
  secrets !! k = None ->
  lambda_handler C event context w =
    (Raise (ValueError
       "Faltan secretos (client-id, client-secret, o redirect-uri) en Parameter Store."),
     record (GetParametersByPath parameter_path true) w0).
Proof.
  intros Hhandoff Hpp Hbucket Hssm Hparams Hsecrets Hk Hmissing.
  rewrite (lambda_handler_configured _ _ _ _ _ _ Hhandoff Hpp Hbucket).
  rewrite bind_run, get_secrets_run, Hssm. cbn [mbind result_bind].
  rewrite Hparams. cbn [mbind result_bind]. rewrite Hsecrets.
  cbn [mbind result_bind].
  assert (Hall : forallb (fun k => bool_decide (is_Some (secrets !! k)))
                   required_secrets = false).
  { apply not_true_is_false. rewrite forallb_forall. intros Hall.
    apply list_elem_of_In, Hall, bool_decide_eq_true in Hk.
    rewrite Hmissing in Hk. by destruct Hk. }
  by rewrite Hall.
Qed.

(** X10. An error of Parameter Store is passed on as it is: the handler
    raises the very error [get_parameters_by_path] raised, after that one
    call, and goes no further.  The same holds for an answer without
    [Parameters]: the handler raises the [KeyError]. *)
Theorem parameter_store_error_aborts event context w w0 parameter_path s3_bucket :
  cache_handoff w = (Return (), w0) ->
  environ w !! "PARAMETER_PATH" = Some parameter_path ->
  environ w !! "S3_BUCKET" = Some s3_bucket ->
  (forall e,
     get_parameters_by_path C parameter_path = Raise e ->
     lambda_handler C event context w =
       (Raise e, record (GetParametersByPath parameter_path true) w0))
  /\ (forall d,
        get_parameters_by_path C parameter_path = Return (VDict d) ->
        assoc "Parameters" d = None ->
        lambda_handler C event context w =
          (Raise (KeyError "Parameters"),
           record (GetParametersByPath parameter_path true) w0)).
Proof.
  intros Hhandoff Hpp Hbucket.
  rewrite (lambda_handler_configured _ _ _ _ _ _ Hhandoff Hpp Hbucket).
  rewrite bind_run, get_secrets_run. split.
  - by intros e ->.
  - intros d -> Hd. unfold subscript, pure_value.
    cbn [mbind result_bind getitem]. by rewrite Hd.
Qed.

(** X11. When the steps before the fetch succeed, the bucket is the value of
    [S3_BUCKET], Parameter Store was asked for the path in [PARAMETER_PATH],
    its answer had the three required secrets, and the client was built from
    these three values, for the scope [user-read-recently-played], with
    [/tmp/.cache] as its cache and without a browser. *)
Theorem setup_success event context w sp s3_bucket w1 :
  setup C w = (Return (sp, s3_bucket), w1) ->
  exists parameter_path secrets client_id client_secret redirect_uri,
    environ w !! "PARAMETER_PATH" = Some parameter_path
    /\ environ w !! "S3_BUCKET" = Some s3_bucket
    /\ (get_secrets C parameter_path (cache_handoff w).2).1 = Return secrets
    /\ secrets !! "client-id" = Some client_id
    /\ secrets !! "client-secret" = Some client_secret
    /\ secrets !! "redirect-uri" = Some redirect_uri
    /\ Spotify C client_id client_secret redirect_uri
         "user-read-recently-played" "/tmp/.cache" false = Return sp
    /\ w1 = record (GetParametersByPath parameter_path true) (cache_handoff w).2
    /\ lambda_handler C event context w
       = (get_recent_tracks C sp ≫= fun tracks => store C tracks s3_bucket) w1.
Proof.
  intros Hsetup. pose proof (lambda_handler_run C event context w) as Hrun.
  rewrite Hsetup in Hrun. revert Hsetup.
  destruct (cache_handoff_shape w) as (_ & _ & _ & Henv & _).
  unfold setup. rewrite bind_run.
  destruct (cache_handoff w) as [[[]|e] w0]; cbn [snd] in *; [|done].
  rewrite bind_run, get_configuration_run, Henv.
  destruct (environ w !! "PARAMETER_PATH") as [parameter_path|]; [|done].
  destruct (environ w !! "S3_BUCKET") as [bucket|]; [|done].
  rewrite bind_run.
  pose proof (get_secrets_world C parameter_path w0) as Hsec.
  destruct (get_secrets C parameter_path w0) as [[secrets|e] w2] eqn:Hget;
    cbn [snd] in Hsec; subst w2; [|done].
  rewrite bind_run. unfold authenticate. rewrite bind_run, eval_run.
  unfold secret.
  destruct (secrets !! "client-id") as [client_id|] eqn:Hid; [|done].
  rewrite bind_run, eval_run.
  destruct (secrets !! "client-secret") as [client_secret|] eqn:Hcs; [|done].
  rewrite bind_run, eval_run.
  destruct (secrets !! "redirect-uri") as [redirect_uri|] eqn:Hru; [|done].
  rewrite eval_run.
  destruct (Spotify C _ _ _ _ _ _) as [sp'|e] eqn:Hsp; [|done].
  intros [= -> -> <-].
  exists parameter_path, secrets, client_id, client_secret, redirect_uri.
  rewrite Hget. by repeat split.
Qed.


(** *** The shape of a run *)

Lemma after_setup_shape sp s3_bucket w1 :
  let run := (get_recent_tracks C sp ≫= fun tracks => store C tracks s3_bucket) w1 in
  exists puts,
    trace run.2 = trace w1 ++ [CurrentUserRecentlyPlayed target_count] ++ puts
    /\ (puts = []
        \/ exists key1 body1 key2 body2,
             puts = [PutObject s3_bucket key1 body1; PutObject s3_bucket key2 body2])
    /\ environ run.2 = environ w1
    /\ (forall key, is_Some (objects w1 !! key) -> is_Some (objects run.2 !! key)).
Proof.
  cbv zeta.
  destruct (get_recent_tracks_total C sp w1) as (tracks & k & Hfetch).
  rewrite (bind_return _ _ _ _ _ Hfetch).
  destruct (later_fields k (fetched sp w1)) as (_ & Henv & Hobj & Htrace & _).
  destruct tracks as [|item tracks].
  - rewrite store_nothing. exists []. cbn [snd]. rewrite Htrace, Henv, Hobj.
    repeat split; try done. by left.
  - destruct (store_cases item tracks s3_bucket (later k (fetched sp w1)))
      as (w' & -> & Htr & Hen & _ & Hob).
    cbn [snd]. eexists [_; _]. rewrite Htr, Hen, Htrace, Henv, Hob, Hobj.
    cbn [trace fetched set_files record].
    split; [by rewrite <- app_assoc|]. split; [right; by eexists _, _, _, _|].
    split; [done|]. intros key Hkey.
    repeat match goal with
    | |- context [match ?x with Some _ => _ | None => _ end] => destruct x
    end; rewrite ?lookup_insert; repeat case_decide; done.
Qed.

(** X12. Every run of the handler makes its outside calls in one order: at
    most one copy of the cache, then at most one call of Parameter Store, then
    at most one call of the Spotify endpoint, then either no S3 write or the
    two of them, both to the same bucket.  The endpoint is called only after
    Parameter Store, and S3 only after the endpoint. *)
Theorem run_shape event context w :
  exists copies ssm api puts,
    trace (lambda_handler C event context w).2 = trace w ++ copies ++ ssm ++ api ++ puts
    /\ (copies = [] \/ copies = [ShutilCopy packaged_cache_path tmp_cache_path])
    /\ (ssm = [] \/ exists p, ssm = [GetParametersByPath p true])
    /\ (api = [] \/ api = [CurrentUserRecentlyPlayed 50])
    /\ (puts = []
        \/ exists bucket key1 body1 key2 body2,
             puts = [PutObject bucket key1 body1; PutObject bucket key2 body2])
    /\ (ssm = [] -> api = [])
    /\ (api = [] -> puts = []).
Proof.
  destruct (setup_shape w) as (copies & ssm & Htrace & Hcopies & Hssm & Hret & _).
  exists copies, ssm. rewrite lambda_handler_run.
  destruct (setup C w) as [[[sp s3_bucket]|e] w1]; cbn [fst snd] in *.
  - destruct (after_setup_shape sp s3_bucket w1) as (puts & Hrun & Hputs & _).
    cbv zeta in Hrun. exists [CurrentUserRecentlyPlayed 50], puts.
    rewrite Hrun, Htrace. split; [by rewrite <- !app_assoc|].
    repeat split; try done.
    + by right.
    + destruct Hputs as [->|(k1 & b1 & k2 & b2 & ->)]; [by left|].
      right. by eexists _, _, _, _, _.
    + intros ->. by destruct Hret.
  - exists [], []. rewrite Htrace, !app_nil_r. repeat split; try done; by left.
Qed.

(** X13. No run of the handler changes an environment variable, and none
    removes an object from the bucket: what was stored before the run is
    still stored after it (possibly rewritten by the run). *)
Theorem handler_keeps_environment_and_objects event context w :
  environ (lambda_handler C event context w).2 = environ w
  /\ forall key,
       is_Some (objects w !! key) ->
       is_Some (objects (lambda_handler C event context w).2 !! key).
Proof.
  destruct (setup_shape w) as (_ & _ & _ & _ & _ & _ & Henv & Hobj).
  rewrite lambda_handler_run.
  destruct (setup C w) as [[[sp s3_bucket]|e] w1]; cbn [fst snd] in *.
  - destruct (after_setup_shape sp s3_bucket w1) as (puts & _ & _ & Hen & Hob).
    cbv zeta in Hen, Hob. rewrite Hen, Henv. split; [done|].
    intros key Hkey. apply Hob. by rewrite Hobj.
  - rewrite Hobj. by split.
Qed.

(** X14. The handoff without a usable seed.  When neither cache file exists
    the handoff does nothing and the handler goes on.  When the packaged
    [.cache] is a directory, [shutil.copy] raises and the handler aborts with
    that error before any network call; nothing is created in [/tmp]. *)
Theorem handoff_without_seed event context w :
  files w !! tmp_cache_path = None ->
  (files w !! packaged_cache_path = None ->
   cache_handoff w = (Return (), w))
  /\ (files w !! packaged_cache_path = Some Directory ->
      exists w',
        lambda_handler C event context w
          = (Raise (IsADirectoryError packaged_cache_path), w')
        /\ trace w' = trace w ++ [ShutilCopy packaged_cache_path tmp_cache_path]
        /\ files w' = files w
        /\ objects w' = objects w).
Proof.
  intros Htmp. split; intros Hseed.
  - unfold cache_handoff, path_exists. rewrite !bind_run, Htmp. simpl.
    by rewrite Hseed.
  - assert (Hh : cache_handoff w =
                   (Raise (IsADirectoryError packaged_cache_path),
                    record (ShutilCopy packaged_cache_path tmp_cache_path) w)).
    { unfold cache_handoff, path_exists, shutil_copy.
      rewrite !bind_run, Htmp. simpl. rewrite Hseed. simpl. by rewrite Hseed. }
    eexists. unfold lambda_handler.
    rewrite (bind_raise _ _ _ _ _ Hh). by repeat split.
Qed.

End More.

(** *** The names of the secrets *)

Lemma split_nonempty sep s : split sep s <> [].
Proof.
  destruct s as [|c s]; cbn [split]; [done|].
  destruct (Ascii.eqb c sep); [done|]. by destruct (split sep s).
Qed.

(** [sep.join(s.split(sep))] is [s]. *)
Lemma join_split sep s :
  String.concat (String sep EmptyString) (split sep s) = s.
Proof.
  induction s as [|c s IH]; cbn [split]; [done|].
  pose proof (split_nonempty sep s) as Hne.
  destruct (Ascii.eqb c sep) eqn:Hc.
  - apply Ascii.eqb_eq in Hc as ->.
    destruct (split sep s) as [|w ws]; [done|].
    change (String.concat (String sep "") ("" :: w :: ws))
      with (String sep (String.concat (String sep "") (w :: ws))).
    by rewrite IH.
  - destruct (split sep s) as [|w ws]; [done|]. rewrite <- IH.
    by destruct ws.
Qed.

Lemma split_pieces sep s :
  Forall (fun p => sep ∉ list_ascii_of_string p) (split sep s).
Proof.
  induction s as [|c s IH]; cbn [split].
  - constructor; [|done]. cbn. apply not_elem_of_nil.
  - destruct (Ascii.eqb c sep) eqn:Hc.
    + constructor; [cbn; apply not_elem_of_nil|done].
    + apply Ascii.eqb_neq in Hc.
      destruct (split sep s) as [|w ws] eqn:Hs; [by destruct (split_nonempty sep s)|].
      apply Forall_cons in IH as [Hw Hws]. constructor; [|done].
      cbn [list_ascii_of_string]. rewrite not_elem_of_cons. split; [congruence|done].
Qed.

Lemma seq_index_last {A} (l : list A) (x : A) :
  seq_index (l ++ [x]) (-1) = Some x.
Proof.
  unfold seq_index. rewrite length_app. cbn [length].
  replace (0 <=? -1) with false by done. cbn [andb].
  replace (-1 <? 0) with true by done. cbn [andb].
  replace (0 <=? Z.of_nat (length l + 1) + -1) with true by (symmetry; apply Z.leb_le; lia).
  replace (Z.to_nat (Z.of_nat (length l + 1) + -1)) with (length l + 0)%nat by lia.
  by rewrite lookup_app_r, Nat.add_0_r, Nat.sub_diag by lia.
Qed.

Lemma append_assoc (a b c : string) : (a +:+ b) +:+ c = a +:+ b +:+ c.
Proof.
  induction a as [|x a IH]; [done|].
  change (String x ((a +:+ b) +:+ c) = String x (a +:+ b +:+ c)). by rewrite IH.
Qed.

Lemma concat_snoc sep (l : list string) x :
  l <> [] ->
  String.concat sep (l ++ [x]) = String.concat sep l +:+ sep +:+ x.
Proof.
  induction l as [|a l IH]; [done|]. intros _.
  destruct l as [|b l]; [done|].
  change (String.concat sep ((a :: b :: l) ++ [x]))
    with (a +:+ sep +:+ String.concat sep ((b :: l) ++ [x])).
  rewrite IH by done.
  change (String.concat sep (a :: b :: l))
    with (a +:+ sep +:+ String.concat sep (b :: l)).
  by rewrite !append_assoc.
Qed.

(** X15. A secret is stored under the last segment of the name of its
    parameter: [secret_name] never fails on a string, its result has no
    slash, and the name is either that result itself (a name without slash)
    or something, a slash, and that result. *)
Theorem secret_name_is_last_segment s :
  exists k,
    secret_name (VStr s) = Return k
    /\ ("/"%char ∉ list_ascii_of_string k)
    /\ (s = k \/ exists pre, s = pre +:+ "/" +:+ k).
Proof.
  pose proof (join_split "/" s) as Hjoin.
  pose proof (split_pieces "/" s) as Hpieces.
  pose proof (split_nonempty "/" s) as Hne.
  unfold secret_name.
  destruct (split "/" s) as [|w ws _] using rev_ind; [done|].
  exists w. rewrite seq_index_last.
  split; [done|]. rewrite Forall_app, Forall_singleton in Hpieces.
  destruct Hpieces as [_ Hw]. split; [exact Hw|].
  destruct ws as [|a ws]; [by left|].
  right. rewrite concat_snoc in Hjoin by done. by eexists.
Qed.

(** The secrets of a list of parameters, one parameter at a time. *)
Lemma secrets_of_app ps qs secrets :
  secrets_of (ps ++ qs) secrets = (m ← secrets_of ps secrets; secrets_of qs m).
Proof.
  revert secrets. induction ps as [|p ps IH]; intros secrets; [done|].
  cbn [app secrets_of].
  destruct (subscript p "Name") as [name|e]; [|done]. cbn [mbind result_bind].
  destruct (secret_name name) as [k|e]; [|done]. cbn [mbind result_bind].
  destruct (subscript p "Value") as [v|e]; [|done]. cbn [mbind result_bind].
  apply IH.
Qed.

(** X16. The dict of secrets holds what the parameters say, the last one
    winning: every entry is the [Value] of a parameter whose [Name] ends in
    the key, and a parameter that comes last fixes the entry of its key. *)
Theorem secrets_come_from_parameters params secrets :
  secrets_of params ∅ = Return secrets ->
  (forall k v,
     secrets !! k = Some v ->
     exists (p name : value),
       p ∈ params /\ p.["Name"] = Return name
       /\ secret_name name = Return k /\ p.["Value"] = Return v)
  /\ (forall before (p name : value) k v,
        params = before ++ [p] ->
        p.["Name"] = Return name -> secret_name name = Return k ->
        p.["Value"] = Return v ->
        secrets !! k = Some v).
Proof.
  intros Hrun. split.
  - assert (Hgen : forall ps acc m,
       secrets_of ps acc = Return m ->
       forall k v, m !! k = Some v ->
         acc !! k = Some v
         \/ exists (p name : value),
              p ∈ ps /\ p.["Name"] = Return name
              /\ secret_name name = Return k /\ p.["Value"] = Return v).
    { induction ps as [|p ps IH]; intros acc m; cbn [secrets_of].
      - intros [= <-] k v Hk. by left.
      - destruct (subscript p "Name") as [name|e] eqn:Hname; [|done].
        cbn [mbind result_bind].
        destruct (secret_name name) as [k'|e] eqn:Hk'; [|done].
        cbn [mbind result_bind].
        destruct (subscript p "Value") as [v'|e] eqn:Hv'; [|done].
        cbn [mbind result_bind]. intros Hm k v Hk.
        destruct (IH _ _ Hm k v Hk) as [Hacc|(q & qn & Hq & H1 & H2 & H3)].
        + rewrite lookup_insert in Hacc. case_decide as Heq.
          * injection Hacc as <-. subst k'. right. exists p, name.
            split; [left|done].
          * by left.
        + right. exists q, qn. split; [by right|done]. }
    intros k v Hk. destruct (Hgen params ∅ secrets Hrun k v Hk) as [Hacc|H]; [|done].
    by rewrite lookup_empty in Hacc.
  - intros before p name k v -> Hname Hk Hv.
    rewrite secrets_of_app in Hrun.
    destruct (secrets_of before ∅) as [m|e]; [|done].
    cbn [mbind result_bind secrets_of] in Hrun.
    rewrite Hname in Hrun. cbn [mbind result_bind] in Hrun.
    rewrite Hk in Hrun. cbn [mbind result_bind] in Hrun.
    rewrite Hv in Hrun. cbn [mbind result_bind] in Hrun.
    injection Hrun as <-. apply lookup_insert_eq.
Qed.

(** *** The names of the objects *)

Lemma parse_digits_zero s : parse_digits (String "0" s) = parse_digits s.
Proof.
  unfold parse_digits. cbn [NilEmpty.uint_of_string].
  destruct (NilEmpty.uint_of_string s) as [d|]; reflexivity.
Qed.

Lemma parse_encode_int n : 0 <= n -> parse_digits (encode_int n) = Some n.
Proof.
  intros Hn. unfold parse_digits, encode_int.
  pose proof (DecimalZ.of_to n) as Hof.
  destruct n as [|p|p]; [reflexivity| |done].
  cbn [Z.to_int NilZero.string_of_int] in *. unfold NilZero.string_of_uint.
  cbn [Z.of_int] in Hof.
  destruct (Pos.to_uint p) as [|d|d|d|d|d|d|d|d|d|d] eqn:Hd; [done|..];
    rewrite NilEmpty.usu; cbn [fmap option_fmap option_map]; by rewrite Hof.
Qed.

Lemma parse_zfill w n : 0 <= n -> parse_digits (zfill w n) = Some n.
Proof.
  intros Hn. unfold zfill.
  induction (w - String.length (encode_int n))%nat as [|k IH];
    cbn [repeat string_of_list_ascii].
  - by apply parse_encode_int.
  - change (String "0" ?a +:+ ?b) with (String "0" (a +:+ b)).
    by rewrite parse_digits_zero.
Qed.

(** The width of a padded number, checked on every number below a bound. *)
Lemma zfill_length w (bound : nat) :
  forallb (fun k => Nat.eqb (String.length (zfill w (Z.of_nat k))) w) (seq 0 bound) = true ->
  forall n, 0 <= n < Z.of_nat bound -> String.length (zfill w n) = w.
Proof.
  rewrite forallb_forall. intros Hall n Hn.
  specialize (Hall (Z.to_nat n)). rewrite Z2Nat.id in Hall by lia.
  apply Nat.eqb_eq, Hall, in_seq. lia.
Qed.

Lemma zfill_2 n : 0 <= n < 100 -> String.length (zfill 2 n) = 2%nat.
Proof. apply (zfill_length 2 100). vm_compute. reflexivity. Qed.

Lemma zfill_4 n : 0 <= n < 10000 -> String.length (zfill 4 n) = 4%nat.
Proof. apply (zfill_length 4 (100 * 100)). vm_compute. reflexivity. Qed.

Lemma zfill_inj w n n' : 0 <= n -> 0 <= n' -> zfill w n = zfill w n' -> n = n'.
Proof.
  intros Hn Hn' Heq. apply (f_equal parse_digits) in Heq.
  rewrite !parse_zfill in Heq by done. by injection Heq.
Qed.

Lemma append_inj (a b c d : string) :
  String.length a = String.length c -> a +:+ b = c +:+ d -> a = c /\ b = d.
Proof.
  revert c. induction a as [|x a IH]; intros [|y c]; cbn [String.length]; try done.
  intros [= Hlen] Heq.
  change (String x (a +:+ b) = String y (c +:+ d)) in Heq.
  injection Heq as -> Heq. by destruct (IH c Hlen Heq) as [-> ->].
Qed.

Lemma append_cancel_l (a b c : string) : a +:+ b = a +:+ c -> b = c.
Proof.
  intros H. by destruct (append_inj a b a c eq_refl H).
Qed.


Lemma length_append (a b : string) :
  String.length (a +:+ b) = (String.length a + String.length b)%nat.
Proof. induction a as [|x a IH]; cbn [String.length]; [done|]. simpl. by rewrite IH. Qed.

Lemma valid_datetime_ranges t :
  valid_datetime t = true ->
  1000 <= year t <= 9999 /\ 1 <= month t <= 12 /\ 1 <= day t <= 31
  /\ 0 <= hour t <= 23 /\ 0 <= minute t <= 59 /\ 0 <= second t <= 59.
Proof.
  unfold valid_datetime. rewrite !andb_true_iff, !Z.leb_le. tauto.
Qed.

Lemma timestamp_fields t :
  strftime "%Y%m%d_%H%M%S" t =
    zfill 4 (year t) +:+ zfill 2 (month t) +:+ zfill 2 (day t) +:+ "_"
    +:+ zfill 2 (hour t) +:+ zfill 2 (minute t) +:+ zfill 2 (second t) +:+ "".
Proof. reflexivity. Qed.

Lemma partition_fields t :
  strftime "year=%Y/month=%m/day=%d" t =
    "year=" +:+ zfill 4 (year t) +:+ "/month=" +:+ zfill 2 (month t)
    +:+ "/day=" +:+ zfill 2 (day t) +:+ "".
Proof. reflexivity. Qed.

Lemma timestamp_length t :
  valid_datetime t = true -> String.length (strftime "%Y%m%d_%H%M%S" t) = 15%nat.
Proof.
  intros (HY & Hm & Hd & HH & HM & HS)%valid_datetime_ranges.
  rewrite timestamp_fields, !length_append.
  rewrite zfill_4, !zfill_2 by lia. reflexivity.
Qed.

Lemma partition_length t :
  valid_datetime t = true ->
  String.length (strftime "year=%Y/month=%m/day=%d" t) = 25%nat.
Proof.
  intros (HY & Hm & Hd & _)%valid_datetime_ranges.
  rewrite partition_fields, !length_append.
  rewrite zfill_4, !zfill_2 by lia. reflexivity.
Qed.

Lemma timestamp_inj t t' :
  valid_datetime t = true -> valid_datetime t' = true ->
  strftime "%Y%m%d_%H%M%S" t = strftime "%Y%m%d_%H%M%S" t' ->
  same_second t t'.
Proof.
  intros (HY & Hm & Hd & HH & HM & HS)%valid_datetime_ranges
         (HY' & Hm' & Hd' & HH' & HM' & HS')%valid_datetime_ranges.
  rewrite !timestamp_fields. intros H.
  apply append_inj in H as [H1 H]; [|by rewrite !zfill_4 by lia].
  apply append_inj in H as [H2 H]; [|by rewrite !zfill_2 by lia].
  apply append_inj in H as [H3 H]; [|by rewrite !zfill_2 by lia].
  apply append_cancel_l in H.
  apply append_inj in H as [H4 H]; [|by rewrite !zfill_2 by lia].
  apply append_inj in H as [H5 H]; [|by rewrite !zfill_2 by lia].
  apply append_inj in H as [H6 _]; [|by rewrite !zfill_2 by lia].
  apply zfill_inj in H1, H2, H3, H4, H5, H6; try lia. by repeat split.
Qed.

Lemma partition_inj t t' :
  valid_datetime t = true -> valid_datetime t' = true ->
  strftime "year=%Y/month=%m/day=%d" t = strftime "year=%Y/month=%m/day=%d" t' ->
  same_day t t'.
Proof.
  intros (HY & Hm & Hd & _)%valid_datetime_ranges
         (HY' & Hm' & Hd' & _)%valid_datetime_ranges.
  rewrite !partition_fields. intros H.
  apply append_cancel_l in H.
  apply append_inj in H as [H1 H]; [|by rewrite !zfill_4 by lia].
  apply append_cancel_l in H.
  apply append_inj in H as [H2 H]; [|by rewrite !zfill_2 by lia].
  apply append_cancel_l in H.
  apply append_inj in H as [H3 _]; [|by rewrite !zfill_2 by lia].
  apply zfill_inj in H1, H2, H3; try lia. by repeat split.
Qed.

(** X17. The name of an object tells when it was written, to the second.
    For clock readings that are dates of four-digit years, two JSON names
    under one prefix are equal exactly when the readings agree up to the
    second, and two JSONL names exactly when the readings of the time stamps
    agree up to the second and those of the partitions up to the day.  So
    only a run in the same second can overwrite an object. *)
Theorem file_names_identify_the_second file_prefix t1 t2 t1' t2' :
  valid_datetime t1 = true -> valid_datetime t2 = true ->
  valid_datetime t1' = true -> valid_datetime t2' = true ->
  (regular_file_name file_prefix t1 = regular_file_name file_prefix t1'
   <-> same_second t1 t1')
  /\ (glue_file_name file_prefix t1 t2 = glue_file_name file_prefix t1' t2'
      <-> same_second t1 t1' /\ same_day t2 t2').
Proof.
  intros Hv1 Hv2 Hv1' Hv2'.
  assert (Hts : forall a b, same_second a b ->
            strftime "%Y%m%d_%H%M%S" a = strftime "%Y%m%d_%H%M%S" b).
  { intros a b ([HY [Hm Hd]] & HH & HM & HS). rewrite !timestamp_fields.
    by rewrite HY, Hm, Hd, HH, HM, HS. }
  assert (Hpt : forall a b, same_day a b ->
            strftime "year=%Y/month=%m/day=%d" a = strftime "year=%Y/month=%m/day=%d" b).
  { intros a b (HY & Hm & Hd). rewrite !partition_fields. by rewrite HY, Hm, Hd. }
  split; split.
  - unfold regular_file_name. intros H.
    do 2 apply append_cancel_l in H.
    apply append_inj in H as [H _]; [|by rewrite !timestamp_length].
    by apply timestamp_inj.
  - intros H. unfold regular_file_name. by rewrite (Hts _ _ H).
  - unfold glue_file_name. intros H.
    do 2 apply append_cancel_l in H.
    apply append_inj in H as [Hp H]; [|by rewrite !partition_length].
    apply append_cancel_l in H.
    apply append_inj in H as [H _]; [|by rewrite !timestamp_length].
    split; [by apply timestamp_inj|by apply partition_inj].
  - intros [H H']. unfold glue_file_name. by rewrite (Hts _ _ H), (Hpt _ _ H').
Qed.



(** *** The properties on the sample data *)

Lemma get_recent_tracks_all_or_nothing_witness :
  exists elements,
    iterate (VList Sample.two_items) = Return elements
    /\ Forall (fun it => is_raise (track_fields it) = false) elements.
Proof.
  pose (C := Sample.collaborators (Return (Sample.response Sample.two_items)) []).
  pose (sp := Sample.client (Return (Sample.response Sample.two_items))).
  pose (l := match (get_recent_tracks C sp Sample.cold).1 with
             | Return l => l | Raise _ => [] end).
  destruct (get_recent_tracks_all_or_nothing C sp Sample.cold l
              (get_recent_tracks C sp Sample.cold).2)
    as (results & items & elements & Hapi & Hitems & _ & Hiter & Hall & _).
  - vm_compute. reflexivity.
  - vm_compute. discriminate.
  - exists elements. split; [|exact Hall].
    injection Hapi as <-. injection Hitems as <-. exact Hiter.
Defined.

Lemma records_are_stamped_in_order_witness :
  exists t1 t2 : value,
    (get_recent_tracks (Sample.collaborators (Return (Sample.response Sample.two_items)) [])
       (Sample.client (Return (Sample.response Sample.two_items))) Sample.cold).1
    = Return [t1; t2]
    /\ t2.["collection_timestamp"] = Return (VStr (isoformat Sample.noon)).
Proof.
  pose (C := Sample.collaborators (Return (Sample.response Sample.two_items)) []).
  pose (sp := Sample.client (Return (Sample.response Sample.two_items))).
  pose (l := match (get_recent_tracks C sp Sample.cold).1 with
             | Return l => l | Raise _ => [] end).
  exists (default VNone (l !! 0%nat)), (default VNone (l !! 1%nat)).
  split; [vm_compute; reflexivity|].
  apply (records_are_stamped_in_order C sp Sample.cold l
           (get_recent_tracks C sp Sample.cold).2 1%nat).
  - vm_compute. reflexivity.
  - vm_compute. reflexivity.
Defined.

Lemma both_writes_are_attempted_witness :
  exists key1 key2 body1 body2,
    key1 <> key2
    /\ List.filter is_put_object
         (trace (lambda_handler (Sample.collaborators (Return Sample.afternoon) [0%nat])
                   VNone VNone Sample.cold).2)
       = [PutObject "bucket" key1 body1; PutObject "bucket" key2 body2].
Proof.
  pose (C := Sample.collaborators (Return Sample.afternoon) [0%nat]).
  pose (sp := Sample.client (Return Sample.afternoon)).
  pose (w1 := (setup C Sample.cold).2).
  pose (l := match (get_recent_tracks C sp w1).1 with Return l => l | Raise _ => [] end).
  destruct (both_writes_are_attempted C VNone VNone Sample.cold sp "bucket" w1
              (hd VNone l) (tl l) (get_recent_tracks C sp w1).2)
    as (_ & Htrace & Hne).
  - vm_compute. reflexivity.
  - vm_compute. reflexivity.
  - vm_compute. discriminate.
  - eexists _, _, _, _. split; [exact Hne|]. fold C. rewrite Htrace.
    vm_compute. reflexivity.
Defined.

Lemma success_only_after_both_writes_witness :
  exists key body,
    objects (lambda_handler (Sample.collaborators (Return Sample.afternoon) [])
               VNone VNone Sample.cold).2 !! ("bucket", key) = Some body.
Proof.
  pose (C := Sample.collaborators (Return Sample.afternoon) []).
  destruct (success_only_after_both_writes C VNone VNone Sample.cold
              (lambda_handler C VNone VNone Sample.cold).2)
    as (sp & s3_bucket & w1 & item & tracks & w2 & Hsetup & _ & H).
  - vm_compute. reflexivity.
  - cbv zeta in H. destruct H as (_ & _ & _ & _ & _ & Hobj).
    assert (Hb : s3_bucket = "bucket").
    { revert Hsetup. vm_compute. by intros [= _ <- _]. }
    rewrite Hb in Hobj. eexists _, _. exact Hobj.
Defined.

Lemma both_writes_fail_witness :
  exists w',
    lambda_handler (Sample.collaborators (Return Sample.afternoon) [0; 1]%nat)
      VNone VNone Sample.cold = (Return no_new_response, w')
    /\ objects w' = objects Sample.cold.
Proof.
  pose (C := Sample.collaborators (Return Sample.afternoon) [0; 1]%nat).
  pose (sp := Sample.client (Return Sample.afternoon)).
  pose (w1 := (setup C Sample.cold).2).
  pose (l := match (get_recent_tracks C sp w1).1 with Return l => l | Raise _ => [] end).
  apply (both_writes_fail C VNone VNone Sample.cold sp "bucket" w1
           (hd VNone l) (tl l) (get_recent_tracks C sp w1).2).
  - vm_compute. reflexivity.
  - vm_compute. reflexivity.
  - vm_compute. discriminate.
  - vm_compute. discriminate.
Defined.

Lemma handler_raises_only_before_fetch_witness :
  objects (lambda_handler (Sample.collaborators (Return Sample.afternoon) [])
             VNone VNone Sample.unconfigured).2
  = objects Sample.unconfigured.
Proof.
  apply (handler_raises_only_before_fetch
           (Sample.collaborators (Return Sample.afternoon) [])
           VNone VNone Sample.unconfigured (KeyError "S3_BUCKET")).
  vm_compute. reflexivity.
Defined.

Lemma missing_secret_aborts_witness :
  (lambda_handler
     (Sample.with_parameters (Return Sample.incomplete_parameters)
        (Sample.collaborators (Return Sample.afternoon) []))
     VNone VNone Sample.cold).1
  = Raise (ValueError
      "Faltan secretos (client-id, client-secret, o redirect-uri) en Parameter Store.").
Proof.
  set (C := Sample.with_parameters (Return Sample.incomplete_parameters)
              (Sample.collaborators (Return Sample.afternoon) [])).
  pose (params := match (v ← Sample.incomplete_parameters.["Parameters"]; iterate v) with
                  | Return l => l | Raise _ => [] end).
  pose (secrets := match secrets_of params ∅ with Return m => m | Raise _ => ∅ end).
  rewrite (missing_secret_aborts C VNone VNone Sample.cold (cache_handoff Sample.cold).2
             "/spotify" "bucket" Sample.incomplete_parameters params secrets
             "redirect-uri").
  - reflexivity.
  - vm_compute. reflexivity.
  - vm_compute. reflexivity.
  - vm_compute. reflexivity.
  - reflexivity.
  - vm_compute. reflexivity.
  - vm_compute. reflexivity.
  - unfold required_secrets. do 2 right. left.
  - vm_compute. reflexivity.
Defined.

Lemma parameter_store_error_aborts_witness :
  (lambda_handler
     (Sample.with_parameters (Raise (External "ClientError"))
        (Sample.collaborators (Return Sample.afternoon) []))
     VNone VNone Sample.cold).1
  = Raise (External "ClientError").
Proof.
  pose (C := Sample.with_parameters (Raise (External "ClientError"))
               (Sample.collaborators (Return Sample.afternoon) [])).
  destruct (parameter_store_error_aborts C VNone VNone Sample.cold
              (cache_handoff Sample.cold).2 "/spotify" "bucket") as [Herr _].
  - vm_compute. reflexivity.
  - vm_compute. reflexivity.
  - vm_compute. reflexivity.
  - fold C. rewrite (Herr (External "ClientError")); reflexivity.
Defined.

Lemma setup_success_witness :
  exists parameter_path secrets,
    environ Sample.cold !! "PARAMETER_PATH" = Some parameter_path
    /\ (get_secrets (Sample.collaborators (Return Sample.afternoon) []) parameter_path
          (cache_handoff Sample.cold).2).1 = Return secrets
    /\ is_Some (secrets !! "redirect-uri").
Proof.
  pose (C := Sample.collaborators (Return Sample.afternoon) []).
  destruct (setup_success C VNone VNone Sample.cold
              (Sample.client (Return Sample.afternoon)) "bucket" (setup C Sample.cold).2)
    as (parameter_path & secrets & client_id & client_secret & redirect_uri
        & Hpp & _ & Hsec & _ & _ & Hru & _).
  - vm_compute. reflexivity.
  - exists parameter_path, secrets. split; [exact Hpp|]. split; [exact Hsec|].
    by exists redirect_uri.
Defined.

Lemma handoff_without_seed_witness :
  exists w',
    lambda_handler (Sample.collaborators (Return Sample.afternoon) [])
      VNone VNone Sample.broken_package
    = (Raise (IsADirectoryError packaged_cache_path), w')
    /\ files w' = files Sample.broken_package.
Proof.
  destruct (handoff_without_seed (Sample.collaborators (Return Sample.afternoon) [])
              VNone VNone Sample.broken_package) as [_ Hdir].
  - vm_compute. reflexivity.
  - destruct Hdir as (w' & Hrun & _ & Hfiles & _).
    + vm_compute. reflexivity.
    + by exists w'.
Defined.

Lemma secrets_come_from_parameters_witness :
  exists secrets,
    (params ← (v ← Sample.parameters.["Parameters"]; iterate v); secrets_of params ∅)
    = Return secrets
    /\ secrets !! "redirect-uri" = Some (VStr "http://localhost").
Proof.
  pose (params := match (v ← Sample.parameters.["Parameters"]; iterate v) with
                  | Return l => l | Raise _ => [] end).
  pose (secrets := match secrets_of params ∅ with Return m => m | Raise _ => ∅ end).
  exists secrets. split; [vm_compute; reflexivity|].
  destruct (secrets_come_from_parameters params secrets) as [_ Hlast].
  - vm_compute. reflexivity.
  - apply (Hlast (take 2 params) (default VNone (params !! 2%nat))
             (VStr "/spotify/redirect-uri") "redirect-uri");
      vm_compute; reflexivity.
Defined.

Lemma file_names_identify_the_second_witness :
  regular_file_name "processed/historial" Sample.noon
  <> regular_file_name "processed/historial" Sample.one_second_later.
Proof.
  destruct (file_names_identify_the_second "processed/historial"
              Sample.noon Sample.noon Sample.one_second_later Sample.noon)
    as [Hregular _]; try reflexivity.
  intros Heq. apply Hregular in Heq. destruct Heq as (_ & _ & _ & Hs). discriminate.
Defined.

End LambdaMore.


(** ** The Deduplicator: further properties *)

Module GlueJobMore.
Import Py GlueJob GlueJobSpec.

Lemma first_per_key_sublist subset (l : list Row) :
  first_per_key subset l `sublist_of` l.
Proof.
  induction l as [|r l IH]; cbn [first_per_key]; [constructor|].
  apply sublist_skip. etrans; [apply sublist_filter|exact IH].
Qed.

Lemma distinct_rows_submseteq (E : Engine) subset (l : list Row) :
  distinct_rows E subset l ⊆+ l.
Proof.
  unfold distinct_rows. rewrite (collect_perm E).
  rewrite <- (scan_perm E l) at 2. apply sublist_submseteq, first_per_key_sublist.
Qed.

(** What a run of the job that returns says about the table. *)
Lemma job_success (E : Engine) from_catalog req :
  job E from_catalog = Return req ->
  exists df,
    from_catalog DATABASE_NAME TABLE_NAME = Return df
    /\ DEDUP_COLUMN ∈ columns df
    /\ frame req = {| columns := columns df;
                      rows := distinct_rows E [DEDUP_COLUMN] (rows df) |}.
Proof.
  unfold job. destruct (from_catalog DATABASE_NAME TABLE_NAME) as [df|e]; [|done].
  cbn [mbind result_bind]. unfold deduplicated_df, dropDuplicates. cbn [forallb].
  destruct (bool_decide (DEDUP_COLUMN ∈ columns df)) eqn:Hcol; [|done].
  cbn [andb mbind result_bind]. intros [= <-]. exists df.
  split; [done|]. split; [by apply bool_decide_eq_true in Hcol|done].
Qed.

(** X19. The job never invents a row and never writes a row more often than
    the table has it: the written rows are a sub-multiset of the loaded ones
    (so there are at most as many), and the columns are those of the table. *)
Theorem job_writes_a_part_of_the_table (E : Engine) from_catalog df req :
  from_catalog DATABASE_NAME TABLE_NAME = Return df ->
  job E from_catalog = Return req ->
  rows (frame req) ⊆+ rows df
  /\ (length (rows (frame req)) <= length (rows df))%nat
  /\ columns (frame req) = columns df.
Proof.
  intros Hload Hjob.
  destruct (job_success E from_catalog req Hjob) as (df' & Hload' & _ & ->).
  rewrite Hload in Hload'. injection Hload' as <-. cbn [rows columns].
  pose proof (distinct_rows_submseteq E [DEDUP_COLUMN] (rows df)) as Hsub.
  split; [done|]. split; [by apply submseteq_length|done].
Qed.

(** X20. Running the job again on what it wrote changes nothing: the second
    run, under any engine, writes the same rows. *)
Theorem job_twice (E E' : Engine) from_catalog req :
  job E from_catalog = Return req ->
  exists req',
    job E' (fun _ _ => Return (frame req)) = Return req'
    /\ rows (frame req') ≡ₚ rows (frame req)
    /\ columns (frame req') = columns (frame req).
Proof.
  intros Hjob.
  destruct (job_success E from_catalog req Hjob) as (df & _ & Hcol & Hframe).
  assert (Hcol' : DEDUP_COLUMN ∈ columns (frame req)) by by rewrite Hframe.
  eexists. split.
  - eapply job_returns; [done|]. by apply dropDuplicates_returns.
  - cbn [frame rows columns]. split; [|done].
    apply dedup_duplicate_free. rewrite Hframe. cbn [rows]. apply dedup_NoDup.
Qed.

(** X21. The number of rows written, and the set of [played_at] values
    among them, do not depend on the order in which Spark meets the rows: two
    runs on the same table, under any two engines, agree on both. *)
Theorem job_count_is_engine_independent (E1 E2 : Engine) from_catalog req1 req2 :
  job E1 from_catalog = Return req1 ->
  job E2 from_catalog = Return req2 ->
  length (rows (frame req1)) = length (rows (frame req2))
  /\ forall k, k ∈ played_at <$> rows (frame req1)
               <-> k ∈ played_at <$> rows (frame req2).
Proof.
  intros H1 H2.
  destruct (job_success E1 from_catalog req1 H1) as (df & Hload & _ & ->).
  destruct (job_success E2 from_catalog req2 H2) as (df' & Hload' & _ & ->).
  rewrite Hload in Hload'. injection Hload' as <-. cbn [rows].
  split; [by rewrite !dedup_length|].
  assert (Hkeys : forall E k,
            k ∈ played_at <$> distinct_rows E [DEDUP_COLUMN] (rows df)
            <-> k ∈ played_at <$> rows df).
  { intros E k. rewrite !list_elem_of_fmap. split.
    - intros (r & -> & Hr). exists r. split; [done|]. by eapply dedup_elem.
    - intros (r & -> & Hr). destruct (dedup_covers E (rows df) r Hr) as (r' & Hr' & Hk).
      by exists r'. }
  intros k. by rewrite !Hkeys.
Qed.


(** *** The properties on the sample tables *)

Lemma job_writes_a_part_of_the_table_witness :
  exists req,
    job reversed (fun _ _ => Return three_rows) = Return req
    /\ (length (rows (frame req)) <= 3)%nat.
Proof.
  destruct (job reversed (fun _ _ => Return three_rows)) as [req|e] eqn:Hjob;
    [|vm_compute in Hjob; discriminate].
  exists req. split; [reflexivity|].
  apply (job_writes_a_part_of_the_table reversed (fun _ _ => Return three_rows)
           three_rows req eq_refl Hjob).
Defined.

Lemma job_twice_witness :
  exists req req',
    job in_order (fun _ _ => Return three_rows) = Return req
    /\ job reversed (fun _ _ => Return (frame req)) = Return req'
    /\ rows (frame req') ≡ₚ rows (frame req).
Proof.
  destruct (job in_order (fun _ _ => Return three_rows)) as [req|e] eqn:Hjob;
    [|vm_compute in Hjob; discriminate].
  destruct (job_twice in_order reversed (fun _ _ => Return three_rows) req Hjob)
    as (req' & Hjob' & Hrows & _).
  by exists req, req'.
Defined.

Lemma job_count_is_engine_independent_witness :
  exists req1 req2,
    job in_order (fun _ _ => Return three_rows) = Return req1
    /\ job reversed (fun _ _ => Return three_rows) = Return req2
    /\ length (rows (frame req1)) = length (rows (frame req2)).
Proof.
  destruct (job in_order (fun _ _ => Return three_rows)) as [req1|e] eqn:Hjob1;
    [|vm_compute in Hjob1; discriminate].
  destruct (job reversed (fun _ _ => Return three_rows)) as [req2|e] eqn:Hjob2;
    [|vm_compute in Hjob2; discriminate].
  exists req1, req2. split; [reflexivity|]. split; [reflexivity|].
  apply (job_count_is_engine_independent in_order reversed
           (fun _ _ => Return three_rows) req1 req2 Hjob1 Hjob2).
Defined.

End GlueJobMore.
